(** * collectd, [src/target_sma.c]: the simple-moving-average target

    A shallow embedding of the filter-chain target [sma] and the
    verification of its specification.  Every C function of the file is
    a function here, under its own name; state that the C code mutates
    through pointers is passed in and handed back.

    Platform: LP64 ([int] has 32 bits, [size_t] 64, [sizeof(int) = 4],
    [sizeof(double) = 8]).  What the C standard leaves undefined (a null
    or out-of-bounds access, signed overflow, division by zero, a
    [double] that does not fit the [int] it is converted to) is an
    explicit [Fault]; so is the one thing the model does not follow, a
    read of [.gauge] from a [value_t] stored through another member. *)

From Stdlib Require Import ZArith Lia String Ascii QArith Qcanon Floats.
From stdpp Require Import base numbers option list.

Local Open Scope Z_scope.

(** ** Outcomes of C code *)

Inductive fault : Set :=
| NullDeref       (* a null pointer is dereferenced *)
| OutOfBounds     (* an array is indexed outside its allocation *)
| DivByZero       (* the right operand of [%] is zero *)
| SignedOverflow  (* an [int] result does not fit 32 bits *)
| FloatToInt      (* a [double] whose integral part no [int] holds *)
| UnionMember.    (* [.gauge] is read from a value stored as another member *)

Inductive result (A : Type) : Type :=
| Ok (a : A)
| Fault (f : fault).
Arguments Ok {A} a.
Arguments Fault {A} f.

#[export] Instance result_ret : MRet result := fun _ a => Ok a.
#[export] Instance result_bind : MBind result := fun _ _ k m =>
  match m with
  | Ok a => k a
  | Fault f => Fault f
  end.

(** ** C integers *)

Definition INT_MIN : Z := - 2 ^ 31.
Definition INT_MAX : Z := 2 ^ 31 - 1.
Definition SIZE_MAX : Z := 2 ^ 64 - 1.
Definition sizeof_int : Z := 4.
Definition sizeof_double : Z := 8.

Definition in_int (z : Z) : bool := (INT_MIN <=? z) && (z <=? INT_MAX).

(** The value of an [int] expression: undefined when it overflows. *)
Definition int_of (z : Z) : result Z :=
  if in_int z then Ok z else Fault SignedOverflow.

Definition int_add (a b : Z) : result Z := int_of (a + b).
Definition int_mul (a b : Z) : result Z := int_of (a * b).

(** [a % b] on [int]: the remainder of the division truncated toward
    zero. *)
Definition int_rem (a b : Z) : result Z :=
  if b =? 0 then Fault DivByZero
  else if (a =? INT_MIN) && (b =? -1) then Fault SignedOverflow
  else Ok (Z.rem a b).

(** Conversion to [size_t] wraps modulo [2^64]. *)
Definition to_size_t (z : Z) : Z := z mod 2 ^ 64.

(** Conversion of a [size_t] to [int]: the low 32 bits, read as a
    two's-complement number. *)
Definition int_of_size_t (z : Z) : Z :=
  let w := z mod 2 ^ 32 in
  if w <? 2 ^ 31 then w else w - 2 ^ 32.

(** ** The type [double]

    The arithmetic the target performs on values: the constant [0.0],
    [+], [/], the conversion [(double)i] of an [int] and the conversion
    [(int)d].  [d_trunc d] is the integral part of [d] (toward zero),
    [None] when [d] has none (a NaN or an infinity). *)

Class Double (D : Type) : Type := {
  d_zero : D;
  d_add : D -> D -> D;
  d_div : D -> D -> D;
  d_of_int : Z -> D;
  d_trunc : D -> option Z
}.

(** Arithmetic without rounding: addition is a commutative monoid. *)
Class ExactDouble (D : Type) `{Double D} : Prop := {
  d_add_comm : forall x y : D, d_add x y = d_add y x;
  d_add_assoc : forall x y z : D, d_add (d_add x y) z = d_add x (d_add y z);
  d_add_0_r : forall x : D, d_add x d_zero = x
}.

(** IEEE 754 binary64, the [double] of the platform. *)
Definition float_trunc (f : float) : option Z :=
  match Prim2SF f with
  | S754_zero _ => Some 0
  | S754_finite s m e =>
      let a := Z.shiftl (Z.pos m) e in
      Some (if s then - a else a)
  | S754_infinity _ => None
  | S754_nan => None
  end.

#[export] Instance binary64 : Double float := {
  d_zero := 0%float;
  d_add := PrimFloat.add;
  d_div := PrimFloat.div;
  d_of_int := fun z =>
    if z <? 0 then PrimFloat.opp (PrimFloat.of_uint63 (Uint63.of_Z (- z)))
    else PrimFloat.of_uint63 (Uint63.of_Z z);
  d_trunc := float_trunc
}.

(** The rationals: the same operations without rounding. *)
#[export] Instance rational : Double Qc := {
  d_zero := 0%Qc;
  d_add := Qcplus;
  d_div := Qcdiv;
  d_of_int := fun z => Q2Qc (inject_Z z);
  d_trunc := fun q => Some (Z.quot (Qnum (this q)) (Z.pos (Qden (this q))))
}.

(** ** Arrays behind pointers *)

(** [p[i]] for a pointer [p] that is null or points to an array. *)
Definition deref {A} (p : option (list A)) : result (list A) :=
  match p with
  | Some a => Ok a
  | None => Fault NullDeref
  end.

Definition load {A} (a : list A) (i : Z) : result A :=
  if i <? 0 then Fault OutOfBounds
  else match a !! Z.to_nat i with
       | Some x => Ok x
       | None => Fault OutOfBounds
       end.

Definition store {A} (a : list A) (i : Z) (x : A) : result (list A) :=
  if (0 <=? i) && (i <? Z.of_nat (length a))
  then Ok (<[Z.to_nat i := x]> a)
  else Fault OutOfBounds.

(** ** Strings

    A [string] is the content of a C string; a NUL character inside it
    ends it, as it does in C. *)

Definition code (c : ascii) : Z := Z.of_N (N_of_ascii c).

Definition tolower (c : ascii) : ascii :=
  if (code "A" <=? code c) && (code c <=? code "Z")
  then ascii_of_N (N_of_ascii c + 32)
  else c.

(** [strcasecmp] of the C library ("C" locale): the difference of the
    first two characters that differ once lowered, [0] when both
    strings end together. *)
Fixpoint strcasecmp (s1 s2 : string) : Z :=
  match s1, s2 with
  | EmptyString, EmptyString => 0
  | EmptyString, String c2 _ => - code (tolower c2)
  | String c1 _, EmptyString => code (tolower c1)
  | String c1 r1, String c2 r2 =>
      let d := code (tolower c1) - code (tolower c2) in
      if negb (d =? 0) then d
      else if code c1 =? 0 then 0
      else strcasecmp r1 r2
  end.

(** The characters of a C string: those before the first NUL. *)
Fixpoint c_str (s : string) : string :=
  match s with
  | EmptyString => EmptyString
  | String c r => if code c =? 0 then EmptyString else String c (c_str r)
  end.

Fixpoint lower (s : string) : string :=
  match s with
  | EmptyString => EmptyString
  | String c r => String (tolower c) (lower r)
  end.

(** Two names are equal without regard to case. *)
Definition eq_nocase (a b : string) : Prop :=
  lower (c_str a) = lower (c_str b).

(** ** The data of the host: data sets, value lists, configuration *)

Inductive ds_type_t : Set :=
| DS_TYPE_COUNTER
| DS_TYPE_GAUGE
| DS_TYPE_DERIVE
| DS_TYPE_ABSOLUTE.

Definition is_gauge (t : ds_type_t) : bool :=
  match t with
  | DS_TYPE_GAUGE => true
  | _ => false
  end.

Record data_source_t : Set := {
  name : string;
  type : ds_type_t
}.

(** [ds_num] is the length of [ds]. *)
Record data_set_t : Set := {
  ds : list data_source_t
}.

Definition ds_num (s : data_set_t) : Z := Z.of_nat (length (ds s)).

(** Status codes of the host that the file refers to by name:
    [EINVAL] and [ENOMEM] of [errno.h], positive by the C standard, and
    [FC_TARGET_CONTINUE] of [filter_chain.h]. *)
Class Host : Type := {
  EINVAL : Z;
  ENOMEM : Z;
  FC_TARGET_CONTINUE : Z;
  EINVAL_pos : 0 < EINVAL;
  ENOMEM_pos : 0 < ENOMEM
}.

(** Linux and collectd's [filter_chain.h]. *)
Definition linux : Host.
Proof.
  refine {| EINVAL := 22; ENOMEM := 12; FC_TARGET_CONTINUE := 0 |}; reflexivity.
Defined.

(** The allocator: the answers it gives to the successive requests,
    [true] for memory, [false] for NULL; once the list is used up every
    request is served. *)
Definition heap : Set := list bool.

Definition alloc (h : heap) : bool * heap :=
  match h with
  | [] => (true, [])
  | b :: h' => (b, h')
  end.

(** [calloc(nmemb, size)]: [nmemb * size] zeroed bytes, NULL when the
    product overflows [size_t] or the allocator has no memory.  The
    result is the number of bytes. *)
Definition calloc (h : heap) (nmemb size : Z) : option Z * heap :=
  let (ok, h') := alloc h in
  (if ok && (nmemb * size <=? SIZE_MAX) then Some (nmemb * size) else None, h').

Section Target.

Context {D : Type} `{Double D} {host : Host}.

(** [value_t]: a union of the four kinds of value. *)
Inductive value_t : Type :=
| counter (c : Z)
| gauge (g : D)
| derive (d : Z)
| absolute (a : Z).

Record value_list_t : Type := {
  values : list value_t
}.

Inductive oconfig_value_t : Type :=
| OCONFIG_TYPE_STRING (s : string)
| OCONFIG_TYPE_NUMBER (n : D)
| OCONFIG_TYPE_BOOLEAN (b : bool).

#[warnings="-register-all"]
Inductive oconfig_item_t : Type :=
| oconfig_item (key : string) (values : list oconfig_value_t)
    (children : list oconfig_item_t).

Definition key (ci : oconfig_item_t) : string :=
  let 'oconfig_item k _ _ := ci in k.
Definition ci_values (ci : oconfig_item_t) : list oconfig_value_t :=
  let 'oconfig_item _ v _ := ci in v.
Definition children (ci : oconfig_item_t) : list oconfig_item_t :=
  let 'oconfig_item _ _ c := ci in c.

(** ** [struct tsma_data_s]

    [data_sources] holds the [data_sources_num] entries written so
    far. *)
Record tsma_data_t : Type := {
  window : Z;
  window_ptr : option (list Z);
  window_buffer : option (list D);
  data_sources : option (list string)
}.

Definition data_sources_num (data : tsma_data_t) : Z :=
  match data_sources data with
  | Some l => Z.of_nat (length l)
  | None => 0
  end.

Definition set_windows (data : tsma_data_t) (p : option (list Z))
    (b : option (list D)) : tsma_data_t :=
  {| window := window data; window_ptr := p; window_buffer := b;
     data_sources := data_sources data |}.

(** [vl->values[i].gauge], read and written. *)
Definition load_gauge (vl : value_list_t) (i : Z) : result D :=
  v ← load (values vl) i;
  match v with
  | gauge g => Ok g
  | _ => Fault UnionMember
  end.

Definition store_gauge (vl : value_list_t) (i : Z) (g : D)
    : result value_list_t :=
  vs ← store (values vl) i (gauge g);
  Ok {| values := vs |}.

(** The loop of [tsma_invoke_gauge]:
    [for (i = lo; i < hi; i++) window_sum += window_buffer[i];],
    [n] iterations being left. *)
Fixpoint sum_loop (buf : list D) (i : Z) (n : nat) (window_sum : D)
    : result D :=
  match n with
  | O => Ok window_sum
  | S n' =>
      x ← load buf i;
      sum_loop buf (i + 1) n' (d_add window_sum x)
  end.

(** ** [tsma_invoke_gauge] *)
Definition tsma_invoke_gauge (s : data_set_t) (vl : value_list_t)
    (data : tsma_data_t) (dsrc_index : Z)
    : result (Z * value_list_t * tsma_data_t) :=
  let window := window data in
  window_offset ← int_mul dsrc_index window;
  (* store new value at pos of oldest *)
  ptr ← deref (window_ptr data);
  buf ← deref (window_buffer data);
  p ← load ptr dsrc_index;
  pos ← int_add window_offset p;
  v ← load_gauge vl dsrc_index;
  buf ← store buf pos v;
  p1 ← int_add p 1;
  p' ← int_rem p1 window;
  ptr ← store ptr dsrc_index p';
  (* average of current window *)
  hi ← int_add window_offset window;
  window_sum ← sum_loop buf window_offset (Z.to_nat (hi - window_offset)) d_zero;
  vl ← store_gauge vl dsrc_index (d_div window_sum (d_of_int window));
  Ok (0, vl, set_windows data (Some ptr) (Some buf)).

(** ** [tsma_config_set_int]

    [*ret = ci->values[0].value.number] converts the [double] to [int]:
    its integral part, undefined when no [int] holds it.  The result is
    the status and the content of [*ret]. *)
Definition tsma_config_set_int (ret : Z) (ci : oconfig_item_t)
    : result (Z * Z) :=
  match ci_values ci with
  | [OCONFIG_TYPE_NUMBER number] =>
      match d_trunc number with
      | Some z => if in_int z then Ok (0, z) else Fault FloatToInt
      | None => Fault FloatToInt
      end
  | _ => Ok (-1, ret)
  end.

(** ** [tsma_config_add_data_source]

    [realloc] keeps the entries of the old array and is one request to
    the allocator; the [assert] of the copying loop holds by the count
    of the entries and is not modelled. *)

Definition is_string (v : oconfig_value_t) : bool :=
  match v with
  | OCONFIG_TYPE_STRING _ => true
  | _ => false
  end.

(** [sstrdup] is declared in [utils/common/common.h] and defined
    outside this file.  The caller provides for a NULL result, so the
    model lets the copy fail when the allocator has no memory; a copy
    that is made equals the string. *)
Definition sstrdup (h : heap) (s : string) : option string * heap :=
  let (ok, h') := alloc h in
  (if ok then Some s else None, h').

(** The loop that copies the strings; [sources] are the entries written
    so far.  An entry whose copy fails is skipped. *)
Fixpoint copy_strings (h : heap) (sources : list string)
    (vs : list oconfig_value_t) : list string * heap :=
  match vs with
  | [] => (sources, h)
  | OCONFIG_TYPE_STRING s :: vs' =>
      match sstrdup h s with
      | (Some s', h') => copy_strings h' (sources ++ [s']) vs'
      | (None, h') => copy_strings h' sources vs'
      end
  | _ :: vs' => copy_strings h sources vs'
  end.

Definition tsma_config_add_data_source (h : heap) (data : tsma_data_t)
    (ci : oconfig_item_t) : Z * tsma_data_t * heap :=
  (* Check number of arguments. *)
  if Z.of_nat (length (ci_values ci)) <? 1 then (-1, data, h)
  (* Check type of arguments *)
  else if negb (forallb is_string (ci_values ci)) then (-1, data, h)
  else
    (* Allocate space for the char pointers *)
    let (ok, h) := alloc h in
    if negb ok then (-1, data, h)
    else
      let old := default [] (data_sources data) in
      (* Copy the strings, allocating memory as needed. *)
      let (sources, h) := copy_strings h old (ci_values ci) in
      (0, {| window := window data; window_ptr := window_ptr data;
             window_buffer := window_buffer data;
             data_sources := Some sources |}, h).

(** ** [tsma_destroy]

    [user_data] is null or points to a cell that holds null or the
    instance.  The result is the status, the cell afterwards, and the
    blocks handed to [free], in order. *)

Inductive block : Set :=
| blk_data_source (s : string)   (* [data->data_sources[i]] *)
| blk_data_sources               (* [data->data_sources] *)
| blk_window_buffer              (* [data->window_buffer] *)
| blk_window_ptr                 (* [data->window_ptr] *)
| blk_data.                      (* [data] *)

Definition tsma_destroy (user_data : option (option tsma_data_t))
    : Z * option (option tsma_data_t) * list block :=
  match user_data with
  | None => (- EINVAL, None, [])
  | Some cell =>
      let freed :=
        match cell with
        | None => []
        | Some data =>
            match data_sources data with
            | Some l => map blk_data_source l ++ [blk_data_sources]
            | None => []
            end
            ++ match window_buffer data with
               | Some _ => [blk_window_buffer]
               | None => []
               end
            ++ match window_ptr data with
               | Some _ => [blk_window_ptr]
               | None => []
               end
            ++ [blk_data]
        end in
      (0, Some None, freed)
  end.

(** ** [tsma_create] *)

Definition set_window (data : tsma_data_t) (w : Z) : tsma_data_t :=
  {| window := w; window_ptr := window_ptr data;
     window_buffer := window_buffer data;
     data_sources := data_sources data |}.

(** The loop over the children of the block; it stops at the first
    option that fails. *)
Fixpoint create_loop (h : heap) (data : tsma_data_t)
    (cs : list oconfig_item_t) : result (Z * tsma_data_t * heap) :=
  match cs with
  | [] => Ok (0, data, h)
  | child :: cs' =>
      '(status, data, h) ←
        (if strcasecmp "Window" (key child) =? 0 then
           '(status, w) ← tsma_config_set_int (window data) child;
           Ok (status, set_window data w, h)
         else if strcasecmp "DataSource" (key child) =? 0 then
           Ok (tsma_config_add_data_source h data child)
         else Ok (0, data, h));
      if negb (status =? 0) then Ok (status, data, h)
      else create_loop h data cs'
  end.

(** The result is the status, the content of [*user_data] and the
    allocator; on failure [*user_data] is left as it was and the
    instance is released. *)
Definition tsma_create (h : heap) (ci : oconfig_item_t)
    (user_data : option tsma_data_t)
    : result (Z * option tsma_data_t * heap) :=
  let (ok, h) := alloc h in
  if negb ok then Ok (- ENOMEM, user_data, h)
  else
    let data := {| window := 1; window_buffer := None; window_ptr := None;
                   data_sources := None |} in
    '(status, data, h) ← create_loop h data (children ci);
    if negb (status =? 0) then Ok (status, user_data, h)
    else Ok (0, Some data, h).

(** ** [tsma_invoke] *)

(** The size of a block of [bytes] zeroed bytes in elements of [size]
    bytes, and the block read as such elements: all bits zero is the
    [int] [0] and the [double] [0.0]. *)
Definition zeroed {A} (zero : A) (bytes size : Z) : list A :=
  replicate (Z.to_nat (bytes / size)) zero.

(** [for (int i = 0; i < n; i++) window_buffer[i] = 0.0;] with [n] of
    type [size_t], [fuel] iterations being left. *)
Fixpoint zero_loop (buf : list D) (i : Z) (fuel : nat) : result (list D) :=
  match fuel with
  | O => Ok buf
  | S fuel' =>
      buf ← store buf i d_zero;
      i ← int_add i 1;
      zero_loop buf i fuel'
  end.

(** The block [if (data->window_buffer == NULL) { ... }].  The status
    is [0] when the windows are there afterwards and [- EINVAL] when an
    allocation failed. *)
Definition allocate_buffer (h : heap) (s : data_set_t) (data : tsma_data_t)
    : result (Z * tsma_data_t * heap) :=
  match window_buffer data with
  | Some _ => Ok (0, data, h)
  | None =>
      let (p, h) :=
        calloc h 1 (to_size_t (to_size_t (window data) * sizeof_int)) in
      let (b, h) :=
        calloc h (ds_num s)
          (to_size_t (to_size_t (window data) * sizeof_double)) in
      let ptr := (fun bytes => zeroed 0 bytes sizeof_int) <$> p in
      let buf := (fun bytes => zeroed d_zero bytes sizeof_double) <$> b in
      match buf, ptr with
      | Some cells, Some _ =>
          (* initialize windows to all zero *)
          let n := to_size_t (ds_num s * to_size_t (window data)) in
          cells ← zero_loop cells 0 (Z.to_nat n);
          Ok (0, set_windows data ptr (Some cells), h)
      | _, _ => Ok (- EINVAL, set_windows data ptr buf, h)
      end
  end.

(** The search of the name among the data sources: the index [j] at
    which the inner loop stops. *)
Fixpoint match_index (nm : string) (sources : list string) (j : Z) : Z :=
  match sources with
  | [] => j
  | src :: rest =>
      if strcasecmp nm src =? 0 then j else match_index nm rest (j + 1)
  end.

(** Whether the body of the loop gets past "No match, ignore". *)
Definition is_selected (data : tsma_data_t) (nm : string) : bool :=
  match data_sources data with
  | Some sources => negb (data_sources_num data <=? match_index nm sources 0)
  | None => true
  end.

(** The loop over the data sources, [i] being the index of the first
    of [srcs]. *)
Fixpoint invoke_loop (s : data_set_t) (i : Z) (srcs : list data_source_t)
    (vl : value_list_t) (data : tsma_data_t)
    : result (value_list_t * tsma_data_t) :=
  match srcs with
  | [] => Ok (vl, data)
  | src :: srcs' =>
      '(vl, data) ←
        (if negb (is_selected data (name src)) then Ok (vl, data)
         else if is_gauge (type src) then
           '(_, vl, data) ← tsma_invoke_gauge s vl data (int_of_size_t i);
           Ok (vl, data)
         else Ok (vl, data));
      invoke_loop s (i + 1) srcs' vl data
  end.

(** [ds], [vl] and [user_data] are null or point to their object; the
    argument [meta] is not used.  The result is the status, the value
    list and the cell of [user_data] afterwards, and the allocator. *)
Definition tsma_invoke (h : heap) (s : option data_set_t)
    (vl : option value_list_t) (user_data : option (option tsma_data_t))
    : result (Z * option value_list_t * option (option tsma_data_t) * heap) :=
  match s, vl, user_data with
  | Some s', Some vl', Some (Some data) =>
      (* allocate buffer *)
      '(status, data, h) ← allocate_buffer h s' data;
      if negb (status =? 0) then Ok (status, vl, Some (Some data), h)
      else
        '(vl', data) ← invoke_loop s' 0 (ds s') vl' data;
        Ok (FC_TARGET_CONTINUE, Some vl', Some (Some data), h)
  | Some _, Some _, Some None => Ok (- EINVAL, vl, user_data, h)
  | _, _, _ => Ok (- EINVAL, vl, user_data, h)
  end.

End Target.

Arguments value_t : clear implicits.
Arguments value_list_t : clear implicits.
Arguments oconfig_value_t : clear implicits.
Arguments oconfig_item_t : clear implicits.
Arguments tsma_data_t : clear implicits.

(** ** The vocabulary of the specification *)

Section Vocabulary.

Context {D : Type} `{Double D}.

(** The sum the loop of [tsma_invoke_gauge] forms, from [0.0], left to
    right, and the mean of a window of [n] values. *)
Definition d_sum (l : list D) : D := fold_left d_add l d_zero.

Definition mean (n : Z) (l : list D) : D := d_div (d_sum l) (d_of_int n).

(** The last [n] elements of a list. *)
Definition lastn (n : nat) (l : list D) : list D := drop (length l - n) l.

(** One channel of an instance: its cursor, [window_ptr[c]], and its
    cells, [window_buffer[c * window .. c * window + window - 1]]. *)
Definition cursor (data : tsma_data_t D) (c : nat) : option Z :=
  ptr ← window_ptr data; ptr !! c.

Definition cells (data : tsma_data_t D) (c : nat) : list D :=
  let n := Z.to_nat (window data) in
  match window_buffer data with
  | Some buf => take n (drop (c * n) buf)
  | None => []
  end.

(** The cells of a window read from the cursor on, which is from the
    oldest value to the newest. *)
Definition chrono (p : nat) (w : list D) : list D := drop p w ++ take p w.

(** Channel [c] can be updated: both arrays are there, the window is
    at least one cell wide, the channel has a cursor and it points into
    the window, its cells lie inside the buffer, and the indices fit
    [int]. *)
Definition channel_ok (data : tsma_data_t D) (c : nat) : bool :=
  match window_ptr data, window_buffer data with
  | Some ptr, Some buf =>
      let n := window data in
      (1 <=? n)
      && ((Z.of_nat c + 1) * n <=? INT_MAX)
      && ((Z.of_nat c + 1) * n <=? Z.of_nat (length buf))
      && match ptr !! c with
         | Some p => (0 <=? p) && (p <? n)
         | None => false
         end
  | _, _ => false
  end.

(** Channel [c] is as [allocate_buffer] leaves a channel: cursor and
    cells are zero. *)
Definition fresh (data : tsma_data_t D) (c : nat) : Prop :=
  cursor data c = Some 0
  /\ cells data c = replicate (Z.to_nat (window data)) d_zero.

(** A run of updates: each call names its channel and brings its value
    list; the value lists come back in the same order. *)
Fixpoint updates (s : data_set_t) (data : tsma_data_t D)
    (calls : list (nat * value_list_t D))
    : result (tsma_data_t D * list (value_list_t D)) :=
  match calls with
  | [] => Ok (data, [])
  | (c, vl) :: rest =>
      '(_, vl, data) ← tsma_invoke_gauge s vl data (Z.of_nat c);
      '(data, outs) ← updates s data rest;
      Ok (data, vl :: outs)
  end.

(** The gauge a value list holds for channel [c]. *)
Definition gauge_at (vl : value_list_t D) (c : nat) : option D :=
  match values vl !! c with
  | Some (gauge g) => Some g
  | _ => None
  end.

(** The values a run feeds to channel [c], oldest first. *)
Definition inputs_on (c : nat) (calls : list (nat * value_list_t D)) : list D :=
  omap (fun call : nat * value_list_t D =>
          if decide (call.1 = c) then gauge_at call.2 c else None) calls.

(** Every call of a run is on a channel that can be updated and brings
    a gauge for it. *)
Definition calls_ok (data : tsma_data_t D) (calls : list (nat * value_list_t D))
    : bool :=
  forallb (fun call : nat * value_list_t D =>
             channel_ok data call.1 && bool_decide (is_Some (gauge_at call.2 call.1)))
    calls.

(** The body of the loop of [tsma_invoke] reaches [tsma_invoke_gauge]
    for the data source. *)
Definition touched (data : tsma_data_t D) (src : data_source_t) : bool :=
  is_selected data (name src) && is_gauge (type src).

(** What one call of [tsma_invoke] does to channel [i]: it leaves
    value, cursor and cells alone, or it writes the value at the
    cursor, advances the cursor and puts the mean of the cells in the
    place of the value. *)
Definition kept (data data' : tsma_data_t D) (vl vl' : value_list_t D)
    (i : nat) : Prop :=
  values vl' !! i = values vl !! i
  /\ cursor data' i = cursor data i
  /\ cells data' i = cells data i.

Definition averaged (data data' : tsma_data_t D) (vl vl' : value_list_t D)
    (i : nat) : Prop :=
  exists p g,
    cursor data i = Some p
    /\ gauge_at vl i = Some g
    /\ cursor data' i = Some ((p + 1) mod window data)
    /\ cells data' i = <[Z.to_nat p := g]> (cells data i)
    /\ values vl' !! i = Some (gauge (mean (window data) (cells data' i))).

(** The value list fits the instance: every channel that the loop of
    [tsma_invoke] updates can be updated and has a gauge. *)
Definition record_ok (data : tsma_data_t D) (s : data_set_t)
    (vl : value_list_t D) : bool :=
  forallb (fun isrc : nat * data_source_t =>
             negb (touched data isrc.2)
             || (channel_ok data isrc.1
                 && bool_decide (is_Some (gauge_at vl isrc.1))))
    (imap pair (ds s)).

(** What an accepted option does to the window size: a [Window]
    option sets it to the integral part of its number. *)
Definition window_step (w : Z) (child : oconfig_item_t D) : Z :=
  if strcasecmp "Window" (key child) =? 0 then
    match ci_values child with
    | [OCONFIG_TYPE_NUMBER number] => default w (d_trunc number)
    | _ => w
    end
  else w.

(** The window size a configuration block asks for: that of its last
    [Window] option, [1] without one. *)
Definition window_of (ci : oconfig_item_t D) : Z :=
  fold_left window_step (children ci) 1.

(** The names its [DataSource] options list, in order. *)
Definition strings_of (vs : list (oconfig_value_t D)) : list string :=
  omap (fun v => match v with
                 | OCONFIG_TYPE_STRING s => Some s
                 | _ => None
                 end) vs.

Definition sources_of_option (child : oconfig_item_t D) : list string :=
  if strcasecmp "Window" (key child) =? 0 then []
  else if strcasecmp "DataSource" (key child) =? 0
       then strings_of (ci_values child)
       else [].

Definition sources_of (ci : oconfig_item_t D) : list string :=
  concat (map sources_of_option (children ci)).

(** What an accepted option does to the array of data sources: a
    [DataSource] option appends its strings, making the array if there
    is none. *)
Definition sources_step (o : option (list string)) (child : oconfig_item_t D)
    : option (list string) :=
  if strcasecmp "Window" (key child) =? 0 then o
  else if strcasecmp "DataSource" (key child) =? 0
       then Some (default [] o ++ strings_of (ci_values child))
       else o.

(** An option that [tsma_create] accepts when memory is at hand. *)
Definition option_ok (child : oconfig_item_t D) : bool :=
  if strcasecmp "Window" (key child) =? 0 then
    match ci_values child with
    | [OCONFIG_TYPE_NUMBER number] =>
        match d_trunc number with
        | Some z => in_int z
        | None => false
        end
    | _ => false
    end
  else if strcasecmp "DataSource" (key child) =? 0 then
    (1 <=? Z.of_nat (length (ci_values child)))
    && forallb is_string (ci_values child)
  else true.

End Vocabulary.

(** ** Sample inputs *)

Definition gauges (names : list string) : data_set_t :=
  {| ds := map (fun nm => {| name := nm; type := DS_TYPE_GAUGE |}) names |}.

Definition readings {D : Type} (gs : list D) : value_list_t D :=
  {| values := map gauge gs |}.

(** An instance as [tsma_create] leaves it. *)
Definition created {D : Type} (w : Z) (sources : option (list string))
    : tsma_data_t D :=
  {| window := w; window_ptr := None; window_buffer := None;
     data_sources := sources |}.

(** An instance as the first record leaves it when the record has
    [n] channels and memory is at hand: [window] cursors and
    [n * window] cells, all zero. *)
Definition started {D : Type} `{Double D} (n w : Z) : tsma_data_t D :=
  {| window := w; window_ptr := Some (replicate (Z.to_nat w) 0);
     window_buffer := Some (replicate (Z.to_nat (n * w)) d_zero);
     data_sources := None |}.

Definition target_block {D : Type} (options : list (oconfig_item_t D))
    : oconfig_item_t D :=
  oconfig_item "Target" [OCONFIG_TYPE_STRING "sma"] options.

Definition option_number {D : Type} (k : string) (number : D)
    : oconfig_item_t D :=
  oconfig_item k [OCONFIG_TYPE_NUMBER number] [].

(** ** Further vocabulary: options and cursors *)

Section Options.

Context {D : Type} `{Double D}.

(** The options [tsma_create] knows; any other is reported and
    skipped. *)
Definition recognised (child : oconfig_item_t D) : bool :=
  (strcasecmp "Window" (key child) =? 0)
  || (strcasecmp "DataSource" (key child) =? 0).

(** An option that is refused with status [-1] before any memory is
    asked for: a [Window] option that has not exactly one number, a
    [DataSource] option without arguments or with an argument that is
    no string. *)
Definition malformed (child : oconfig_item_t D) : bool :=
  if strcasecmp "Window" (key child) =? 0 then
    match ci_values child with
    | [OCONFIG_TYPE_NUMBER _] => false
    | _ => true
    end
  else if strcasecmp "DataSource" (key child) =? 0 then
    (Z.of_nat (length (ci_values child)) <? 1)
    || negb (forallb is_string (ci_values child))
  else false.

(** The strings of a [DataSource] option that get stored when the
    requests for their copies go to allocator [h]: those whose request
    is served, in their order. *)
Fixpoint served (h : heap) (ss : list string) : list string :=
  match ss with
  | [] => []
  | s :: ss' =>
      if (alloc h).1 then s :: served (alloc h).2 ss'
      else served (alloc h).2 ss'
  end.

(** Two options that [tsma_create] cannot tell apart: the keys differ
    in case at most and the arguments are the same. *)
Definition same_option (c c' : oconfig_item_t D) : Prop :=
  eq_nocase (key c) (key c') /\ ci_values c = ci_values c'.

(** Every cursor of the instance points into a window. *)
Definition cursors_in_range (data : tsma_data_t D) : bool :=
  match window_ptr data with
  | Some ptr => forallb (fun p => (0 <=? p) && (p <? window data)) ptr
  | None => true
  end.

(** The first record fits the windows it is about to get: every
    channel that the loop of [tsma_invoke] updates is among the first
    [window] channels, which are the ones with a cursor, and has a
    gauge. *)
Definition first_record_ok (data : tsma_data_t D) (s : data_set_t)
    (vl : value_list_t D) : bool :=
  forallb (fun isrc : nat * data_source_t =>
             negb (touched data isrc.2)
             || ((Z.of_nat isrc.1 <? window data)
                 && bool_decide (is_Some (gauge_at vl isrc.1))))
    (imap pair (ds s)).

End Options.
(** ** Integers, arrays and the monad *)

Ltac bind_simpl :=
  try unfold mbind; try unfold result_bind; cbn beta iota.

Tactic Notation "bind_simpl" "in" hyp(H) :=
  try unfold mbind in H; try unfold result_bind in H; cbn beta iota in H.

Lemma int_of_in (z : Z) : INT_MIN <= z <= INT_MAX -> int_of z = Ok z.
Proof.
  intros Hz. unfold int_of, in_int.
  destruct (Z.leb_spec INT_MIN z), (Z.leb_spec z INT_MAX); simpl; auto; lia.
Qed.

Lemma int_rem_mod (a b : Z) :
  0 <= a -> 0 < b -> int_rem a b = Ok (a mod b).
Proof.
  intros Ha Hb. unfold int_rem.
  destruct (Z.eqb_spec b 0); [lia|].
  destruct (Z.eqb_spec b (-1)); [lia|].
  rewrite andb_false_r. f_equal. apply Z.rem_mod_nonneg; lia.
Qed.

Lemma load_lookup {A} (a : list A) (i : nat) (x : A) :
  a !! i = Some x -> load a (Z.of_nat i) = Ok x.
Proof.
  intros Hx. unfold load.
  destruct (Z.ltb_spec (Z.of_nat i) 0); [lia|].
  rewrite Nat2Z.id, Hx. reflexivity.
Qed.

Lemma store_insert {A} (a : list A) (i : nat) (x : A) :
  (i < length a)%nat -> store a (Z.of_nat i) x = Ok (<[i := x]> a).
Proof.
  intros Hi. unfold store.
  destruct (Z.leb_spec 0 (Z.of_nat i)); [|lia].
  destruct (Z.ltb_spec (Z.of_nat i) (Z.of_nat (length a))); [|lia].
  simpl. rewrite Nat2Z.id. reflexivity.
Qed.

Section Windows.

Context {D : Type} `{Double D}.

Lemma sum_loop_fold (buf : list D) (n i : nat) (acc : D) :
  (i + n <= length buf)%nat ->
  sum_loop buf (Z.of_nat i) n acc
  = Ok (fold_left d_add (take n (drop i buf)) acc).
Proof.
  revert i acc. induction n as [|n IH]; intros i acc Hlen; simpl.
  - reflexivity.
  - destruct (lookup_lt_is_Some_2 buf i) as [x Hx]; [lia|].
    rewrite (load_lookup _ _ _ Hx). bind_simpl.
    replace (Z.of_nat i + 1) with (Z.of_nat (S i)) by lia.
    rewrite IH by lia.
    rewrite (drop_S _ _ _ Hx). reflexivity.
Qed.

(** What [channel_ok] says, in propositions. *)
Lemma channel_ok_inv (data : tsma_data_t D) (c : nat) :
  channel_ok data c = true ->
  exists ptr buf p,
    window_ptr data = Some ptr /\ window_buffer data = Some buf
    /\ ptr !! c = Some p
    /\ 1 <= window data
    /\ (Z.of_nat c + 1) * window data <= INT_MAX
    /\ (Z.of_nat c + 1) * window data <= Z.of_nat (length buf)
    /\ 0 <= p < window data.
Proof.
  unfold channel_ok. intros Hok.
  destruct (window_ptr data) as [ptr|]; [|discriminate].
  destruct (window_buffer data) as [buf|]; [|discriminate].
  destruct (ptr !! c) as [p|] eqn:Hp; [|rewrite andb_false_r in Hok; discriminate].
  apply andb_prop in Hok as [Hok H4]. apply andb_prop in Hok as [Hok H3].
  apply andb_prop in Hok as [H1 H2]. apply andb_prop in H4 as [H4 H5].
  exists ptr, buf, p. repeat split; auto; lia.
Qed.

Lemma channel_ok_cursor (data : tsma_data_t D) (c : nat) :
  channel_ok data c = true ->
  exists p, cursor data c = Some p /\ 0 <= p < window data.
Proof.
  intros (ptr & buf & p & Hptr & _ & Hp & _ & _ & _ & Hr)%channel_ok_inv.
  exists p. split; [|exact Hr]. unfold cursor. rewrite Hptr. exact Hp.
Qed.

Lemma channel_ok_cells (data : tsma_data_t D) (c : nat) :
  channel_ok data c = true ->
  length (cells data c) = Z.to_nat (window data).
Proof.
  intros (ptr & buf & p & _ & Hbuf & _ & HN & _ & Hlen & _)%channel_ok_inv.
  unfold cells. rewrite Hbuf, length_take, length_drop. nia.
Qed.

(** *** One update, seen through the channels *)

Lemma tsma_invoke_gauge_spec (s : data_set_t) (vl : value_list_t D)
    (data : tsma_data_t D) (c : nat) (p : Z) (g : D) :
  channel_ok data c = true ->
  cursor data c = Some p ->
  gauge_at vl c = Some g ->
  exists data',
    tsma_invoke_gauge s vl data (Z.of_nat c)
    = Ok (0, {| values := <[c := gauge (mean (window data) (cells data' c))]>
                            (values vl) |}, data')
    /\ window data' = window data
    /\ data_sources data' = data_sources data
    /\ cursor data' c = Some ((p + 1) mod window data)
    /\ cells data' c = <[Z.to_nat p := g]> (cells data c)
    /\ (forall c', c' <> c ->
          cursor data' c' = cursor data c' /\ cells data' c' = cells data c')
    /\ (forall c', channel_ok data c' = true -> channel_ok data' c' = true).
Proof.
  intros Hok Hcur Hg.
  destruct (channel_ok_inv _ _ Hok)
    as (ptr & buf & p0 & Hptr & Hbuf & Hp & HN & Hint & Hlen & Hr).
  assert (p0 = p) as ->.
  { unfold cursor in Hcur. rewrite Hptr in Hcur. simpl in Hcur. congruence. }
  set (N := window data) in *.
  set (n := Z.to_nat N).
  set (pn := Z.to_nat p).
  set (buf' := <[(c * n + pn)%nat := g]> buf).
  set (ptr' := <[c := (p + 1) mod N]> ptr).
  exists (set_windows data (Some ptr') (Some buf')).
  assert (Hc : (c < length ptr)%nat) by (eapply lookup_lt_Some; eauto).
  assert (Hpos : Z.of_nat (c * n + pn)%nat = Z.of_nat c * N + p) by (subst n pn; nia).
  assert (Hin : (c * n + pn < length buf)%nat) by (subst n pn; nia).
  assert (Hval : exists v, values vl !! c = Some v /\ v = gauge g).
  { unfold gauge_at in Hg. destruct (values vl !! c) as [[]|]; try discriminate.
    eexists; split; eauto. congruence. }
  destruct Hval as (v & Hv & ->).
  assert (Hcells : cells (set_windows data (Some ptr') (Some buf')) c
                   = <[pn := g]> (cells data c)).
  { unfold cells. simpl. rewrite Hbuf. fold N n. subst buf'.
    rewrite drop_insert_ge by lia.
    replace (c * n + pn - c * n)%nat with pn by lia.
    apply take_insert_lt. subst n pn. lia. }
  split; [|split; [reflexivity|split; [reflexivity|split; [|split; [exact Hcells|split]]]]].
  - unfold tsma_invoke_gauge. fold N.
    unfold int_mul. rewrite int_of_in by (unfold INT_MIN; nia). bind_simpl.
    rewrite Hptr, Hbuf. simpl. bind_simpl.
    rewrite (load_lookup _ _ _ Hp). bind_simpl.
    unfold int_add at 1. rewrite int_of_in by (unfold INT_MIN; nia). bind_simpl.
    unfold load_gauge. rewrite (load_lookup _ _ _ Hv). bind_simpl.
    rewrite <- Hpos, (store_insert buf _ g Hin). bind_simpl.
    unfold int_add at 1. rewrite int_of_in by (unfold INT_MIN; nia). bind_simpl.
    rewrite int_rem_mod by lia. bind_simpl.
    rewrite store_insert by exact Hc. bind_simpl.
    unfold int_add. rewrite int_of_in by (unfold INT_MIN; nia). bind_simpl.
    replace (Z.of_nat c * N + N - Z.of_nat c * N) with N by lia.
    replace (Z.of_nat c * N) with (Z.of_nat (c * n)%nat) by (subst n; nia).
    rewrite sum_loop_fold by (rewrite length_insert; subst n; nia). bind_simpl.
    unfold store_gauge. rewrite store_insert by (eapply lookup_lt_Some; eauto).
    bind_simpl. fold n buf' ptr'.
    reflexivity.
  - unfold cursor. simpl. subst ptr'. apply list_lookup_insert_eq. exact Hc.
  - intros c' Hne. split.
    + unfold cursor. simpl. rewrite Hptr. simpl. subst ptr'.
      apply list_lookup_insert_ne. congruence.
    + unfold cells. simpl. rewrite Hbuf. fold N n. subst buf'.
      destruct (Nat.lt_ge_cases c' c) as [Hlt|Hge].
      * rewrite drop_insert_ge by nia. apply take_insert_ge. subst n pn. nia.
      * rewrite drop_insert_lt by (subst n pn; nia). reflexivity.
  - intros c' Hok'.
    destruct (channel_ok_inv _ _ Hok')
      as (ptr0 & buf0 & p' & Hptr0 & Hbuf0 & Hp' & _ & Hint' & Hlen' & Hr').
    assert (ptr0 = ptr) as -> by congruence.
    assert (buf0 = buf) as -> by congruence.
    unfold channel_ok. simpl. fold N. subst buf' ptr'.
    rewrite length_insert.
    destruct (decide (c' = c)) as [->|Hne].
    + rewrite list_lookup_insert_eq by exact Hc.
      pose proof (Z.mod_pos_bound (p + 1) N ltac:(lia)).
      repeat (apply andb_true_intro; split); lia.
    + rewrite list_lookup_insert_ne by congruence. rewrite Hp'.
      repeat (apply andb_true_intro; split); lia.
Qed.

End Windows.

(** ** The window as a queue *)

Section Queue.

Context {D : Type} `{Double D}.

Lemma chrono_length (p : nat) (w : list D) :
  (p <= length w)%nat -> length (chrono p w) = length w.
Proof.
  intros Hp. unfold chrono.
  rewrite length_app, length_drop, length_take. lia.
Qed.

(** Writing at the cursor and advancing it drops the oldest value and
    appends the new one. *)
Lemma chrono_insert (w : list D) (p : nat) (g : D) :
  (p < length w)%nat ->
  chrono (S p mod length w) (<[p := g]> w) = drop 1 (chrono p w) ++ [g].
Proof.
  intros Hp. unfold chrono.
  rewrite (insert_take_drop w p g Hp).
  assert (Htake : length (take p w) = p) by (rewrite length_take; lia).
  assert (Hold : drop 1 (drop p w ++ take p w) = drop (S p) w ++ take p w).
  { rewrite drop_app_le by (rewrite length_drop; lia).
    rewrite drop_drop. f_equal. f_equal. lia. }
  rewrite Hold.
  destruct (decide (S p = length w)) as [Hlast|Hmore].
  - replace (S p mod length w)%nat with 0%nat
      by (rewrite <- Hlast; symmetry; apply Nat.Div0.mod_same).
    rewrite (drop_ge w (S p)) by lia. simpl.
    rewrite drop_0, app_nil_r. reflexivity.
  - rewrite Nat.mod_small by lia.
    rewrite drop_app_ge by lia. rewrite Htake.
    replace (S p - p)%nat with 1%nat by lia. simpl. rewrite drop_0.
    rewrite take_app_ge by lia. rewrite Htake.
    replace (S p - p)%nat with 1%nat by lia. simpl. rewrite take_0.
    rewrite <- app_assoc. reflexivity.
Qed.

(** A window read from cursor [0] is the window. *)
Lemma chrono_0 (w : list D) : chrono 0 w = w.
Proof. unfold chrono. simpl. rewrite drop_0. apply app_nil_r. Qed.

Lemma lastn_app_ge (n : nat) (h vs : list D) :
  length h = n -> (n <= length vs)%nat ->
  drop (length vs) (h ++ vs) = lastn n vs.
Proof.
  intros Hh Hn. unfold lastn.
  rewrite drop_app_ge by lia.
  rewrite Hh. reflexivity.
Qed.

End Queue.

(** ** Runs of updates *)

Section Runs.

Context {D : Type} `{Double D}.

Lemma inputs_on_cons_eq (c : nat) (vl : value_list_t D) (g : D)
    (rest : list (nat * value_list_t D)) :
  gauge_at vl c = Some g ->
  inputs_on c ((c, vl) :: rest) = g :: inputs_on c rest.
Proof.
  intros Hg. unfold inputs_on. simpl.
  destruct (decide (c = c)); [|congruence]. rewrite Hg. reflexivity.
Qed.

Lemma inputs_on_cons_ne (c c1 : nat) (vl : value_list_t D)
    (rest : list (nat * value_list_t D)) :
  c1 <> c -> inputs_on c ((c1, vl) :: rest) = inputs_on c rest.
Proof.
  intros Hne. unfold inputs_on. simpl.
  destruct (decide (c1 = c)); [congruence|]. reflexivity.
Qed.

Lemma inputs_on_snoc (c : nat) (vl : value_list_t D) (g : D)
    (calls : list (nat * value_list_t D)) :
  gauge_at vl c = Some g ->
  inputs_on c (calls ++ [(c, vl)]) = inputs_on c calls ++ [g].
Proof.
  intros Hg. unfold inputs_on. rewrite omap_app. simpl.
  destruct (decide (c = c)); [|congruence]. rewrite Hg. reflexivity.
Qed.

Lemma calls_ok_cons (data : tsma_data_t D) (c : nat) (vl : value_list_t D)
    (rest : list (nat * value_list_t D)) :
  calls_ok data ((c, vl) :: rest) = true ->
  channel_ok data c = true
  /\ (exists g, gauge_at vl c = Some g)
  /\ calls_ok data rest = true.
Proof.
  unfold calls_ok. simpl. intros Hok.
  apply andb_prop in Hok as [Hhd Htl]. apply andb_prop in Hhd as [Hc Hg].
  apply bool_decide_eq_true in Hg. destruct Hg as [g Hg]. eauto.
Qed.

Lemma calls_ok_app (data : tsma_data_t D)
    (l1 l2 : list (nat * value_list_t D)) :
  calls_ok data (l1 ++ l2) = true ->
  calls_ok data l1 = true /\ calls_ok data l2 = true.
Proof.
  unfold calls_ok. rewrite forallb_app. apply andb_prop.
Qed.

Lemma calls_ok_mono (data data' : tsma_data_t D)
    (calls : list (nat * value_list_t D)) :
  (forall c, channel_ok data c = true -> channel_ok data' c = true) ->
  calls_ok data calls = true -> calls_ok data' calls = true.
Proof.
  intros Hmono. unfold calls_ok. rewrite !forallb_forall.
  intros Hall call Hin. specialize (Hall call Hin).
  apply andb_prop in Hall as [Hc Hg].
  apply andb_true_intro. split; auto.
Qed.

Lemma updates_snoc (s : data_set_t) (calls : list (nat * value_list_t D))
    (data : tsma_data_t D) (c : nat) (vl : value_list_t D) :
  updates s data (calls ++ [(c, vl)])
  = '(data1, outs) ← updates s data calls;
    '(_, vl', data2) ← tsma_invoke_gauge s vl data1 (Z.of_nat c);
    Ok (data2, outs ++ [vl']).
Proof.
  revert data. induction calls as [|[c1 vl1] calls IH]; intros data; simpl.
  - bind_simpl. destruct (tsma_invoke_gauge s vl data (Z.of_nat c)) as [[[st vl'] d]|];
      reflexivity.
  - bind_simpl.
    destruct (tsma_invoke_gauge s vl1 data (Z.of_nat c1)) as [[[st vl1'] d1]|];
      [|reflexivity].
    rewrite IH. bind_simpl.
    destruct (updates s d1 calls) as [[d2 outs]|]; [|reflexivity].
    destruct (tsma_invoke_gauge s vl d2 (Z.of_nat c)) as [[[st' vl'] d3]|];
      reflexivity.
Qed.

(** A run keeps every channel it found updatable so, and moves
    channel [c] as a queue that its inputs pass through. *)
Lemma updates_channel (s : data_set_t) (c : nat) :
  forall (calls : list (nat * value_list_t D)) (data : tsma_data_t D) (p : Z),
    calls_ok data calls = true ->
    channel_ok data c = true ->
    cursor data c = Some p ->
    exists data' outs,
      updates s data calls = Ok (data', outs)
      /\ length outs = length calls
      /\ window data' = window data
      /\ data_sources data' = data_sources data
      /\ (forall c', channel_ok data c' = true -> channel_ok data' c' = true)
      /\ cursor data' c
         = Some ((p + Z.of_nat (length (inputs_on c calls))) mod window data)
      /\ chrono (Z.to_nat ((p + Z.of_nat (length (inputs_on c calls)))
                           mod window data)) (cells data' c)
         = drop (length (inputs_on c calls))
             (chrono (Z.to_nat p) (cells data c) ++ inputs_on c calls).
Proof.
  induction calls as [|[c1 vl1] rest IH]; intros data p Hcalls Hok Hcur.
  - destruct (channel_ok_cursor _ _ Hok) as (p0 & Hp0 & Hr).
    assert (p0 = p) as -> by congruence.
    exists data, []. simpl. rewrite Z.add_0_r, Z.mod_small by lia.
    rewrite app_nil_r, drop_0. repeat split; auto.
  - destruct (calls_ok_cons _ _ _ _ Hcalls) as (Hok1 & [g Hg] & Hrest).
    destruct (channel_ok_cursor _ _ Hok1) as (p1 & Hp1 & Hr1).
    destruct (tsma_invoke_gauge_spec s vl1 data c1 p1 g Hok1 Hp1 Hg)
      as (data1 & Hrun & Hwin & Hsrc & Hcur1 & Hcells1 & Hframe & Hkeep).
    destruct (channel_ok_cursor _ _ Hok) as (p0 & Hp0 & Hr).
    assert (p0 = p) as -> by congruence.
    pose proof (channel_ok_cells _ _ Hok) as Hlen.
    assert (HN : 1 <= window data) by lia.
    destruct (decide (c1 = c)) as [->|Hne].
    + assert (p1 = p) as -> by congruence.
      destruct (IH data1 ((p + 1) mod window data)
                  (calls_ok_mono _ _ _ Hkeep Hrest) (Hkeep _ Hok) Hcur1)
        as (data' & outs & Hrun' & Hlen' & Hwin' & Hsrc' & Hkeep' & Hcur' & Hq).
      rewrite (inputs_on_cons_eq _ _ _ _ Hg).
      exists data'. eexists. cbn [updates]. rewrite Hrun. bind_simpl.
      rewrite Hrun'. bind_simpl.
      rewrite Hwin in *. simpl length.
      assert (Hidx : ((p + 1) mod window data
                      + Z.of_nat (length (inputs_on c rest))) mod window data
                     = (p + Z.of_nat (S (length (inputs_on c rest))))
                         mod window data).
      { rewrite Zplus_mod_idemp_l. f_equal. lia. }
      rewrite Hidx in *.
      split; [reflexivity|]. split; [simpl; congruence|]. split; [exact Hwin'|].
      split; [congruence|]. split; [auto|]. split; [exact Hcur'|].
      rewrite Hq, Hcells1.
      assert (Hstep : Z.to_nat ((p + 1) mod window data)
                      = (S (Z.to_nat p) mod length (cells data c))%nat).
      { rewrite Hlen. rewrite <- Nat2Z.id. f_equal.
        rewrite Nat2Z.inj_mod. f_equal; lia. }
      rewrite Hstep, chrono_insert by lia.
      set (h := chrono (Z.to_nat p) (cells data c)).
      assert (Hh : length h = Z.to_nat (window data)).
      { subst h. rewrite chrono_length; lia. }
      rewrite <- app_assoc. simpl.
      rewrite <- (drop_app_le h (g :: inputs_on c rest) 1) by lia.
      rewrite drop_drop. reflexivity.
    + destruct (Hframe c (not_eq_sym Hne)) as [Hc Hw].
      destruct (IH data1 p (calls_ok_mono _ _ _ Hkeep Hrest) (Hkeep _ Hok)
                  ltac:(congruence))
        as (data' & outs & Hrun' & Hlen' & Hwin' & Hsrc' & Hkeep' & Hcur' & Hq).
      rewrite (inputs_on_cons_ne _ _ _ _ Hne).
      exists data'. eexists. cbn [updates]. rewrite Hrun. bind_simpl.
      rewrite Hrun'. bind_simpl.
      rewrite Hwin, Hw in *.
      split; [reflexivity|]. split; [simpl; congruence|]. split; [exact Hwin'|].
      split; [congruence|]. split; [auto|]. split; [exact Hcur'|]. exact Hq.
Qed.

End Runs.

(** ** Sums without rounding *)

#[export] Instance rational_exact : ExactDouble Qc.
Proof.
  split; intros; simpl.
  - apply Qcplus_comm.
  - symmetry; apply Qcplus_assoc.
  - apply Qcplus_0_r.
Qed.

Section Sums.

Context {D : Type} `{ExactDouble D}.

Lemma d_add_0_l (x : D) : d_add d_zero x = x.
Proof. rewrite d_add_comm. apply d_add_0_r. Qed.

Lemma fold_left_d_add (l : list D) (a : D) :
  fold_left d_add l a = d_add a (d_sum l).
Proof.
  unfold d_sum. revert a. induction l as [|x l IH]; intros a; simpl.
  - symmetry. apply d_add_0_r.
  - rewrite IH, (IH (d_add d_zero x)), d_add_0_l. apply d_add_assoc.
Qed.

Lemma d_sum_app (a b : list D) : d_sum (a ++ b) = d_add (d_sum a) (d_sum b).
Proof.
  unfold d_sum at 1. rewrite fold_left_app. apply fold_left_d_add.
Qed.

(** The sum of a window does not depend on where its cursor is. *)
Lemma d_sum_chrono (p : nat) (w : list D) : d_sum (chrono p w) = d_sum w.
Proof.
  unfold chrono. rewrite d_sum_app, d_add_comm, <- d_sum_app.
  rewrite take_drop. reflexivity.
Qed.

Lemma d_sum_zeros (l : list D) (n : nat) :
  d_sum (l ++ replicate n d_zero) = d_sum l.
Proof.
  rewrite d_sum_app. induction n as [|n IH]; simpl.
  - apply d_add_0_r.
  - unfold d_sum in *. simpl. rewrite d_add_0_l. exact IH.
Qed.

End Sums.

(** ** The mean an update returns *)

Section Means.

Context {D : Type} `{Double D}.

Lemma gauge_at_insert (vl : value_list_t D) (c : nat) (g m : D) :
  gauge_at vl c = Some g ->
  gauge_at {| values := <[c := gauge m]> (values vl) |} c = Some m.
Proof.
  unfold gauge_at. simpl. intros Hg.
  rewrite list_lookup_insert_eq; [reflexivity|].
  destruct (values vl !! c) eqn:Hv; [|discriminate].
  eapply lookup_lt_Some; eauto.
Qed.

(** The last call of a run, on channel [c]: the value list it hands
    back holds the mean of the cells of [c], and these cells, read from
    the cursor on, are the end of the old window followed by the inputs
    of the run.  No law of arithmetic is used: this holds for binary64
    as it stands. *)
Lemma updates_last (s : data_set_t) (data : tsma_data_t D)
    (calls : list (nat * value_list_t D)) (c : nat) (vl : value_list_t D)
    (p : Z) :
  calls_ok data (calls ++ [(c, vl)]) = true ->
  cursor data c = Some p ->
  let vs := inputs_on c (calls ++ [(c, vl)]) in
  let p' := (p + Z.of_nat (length vs)) mod window data in
  exists data' outs vl',
    updates s data (calls ++ [(c, vl)]) = Ok (data', outs ++ [vl'])
    /\ length outs = length calls
    /\ gauge_at vl' c = Some (mean (window data) (cells data' c))
    /\ cursor data' c = Some p'
    /\ length (cells data' c) = Z.to_nat (window data)
    /\ chrono (Z.to_nat p') (cells data' c)
       = drop (length vs) (chrono (Z.to_nat p) (cells data c) ++ vs).
Proof.
  intros Hcalls Hcur vs p'.
  destruct (calls_ok_app _ _ _ Hcalls) as [Hpre Hlast].
  destruct (calls_ok_cons _ _ _ _ Hlast) as (Hok & [g Hg] & _).
  destruct (updates_channel s c _ data p Hcalls Hok Hcur)
    as (data' & outs' & Hrun & _ & Hwin & _ & Hkeep & Hcur' & Hq).
  destruct (updates_channel s c _ data p Hpre Hok Hcur)
    as (data1 & outs & Hrun1 & Hlen1 & Hwin1 & _ & Hkeep1 & Hcur1 & _).
  destruct (tsma_invoke_gauge_spec s vl data1 c _ g (Hkeep1 _ Hok) Hcur1 Hg)
    as (data2 & Hrun2 & _).
  match type of Hrun2 with _ = Ok (_, ?v, _) => set (vl2 := v) in * end.
  assert (Hfinal : updates s data (calls ++ [(c, vl)])
                   = Ok (data2, outs ++ [vl2])).
  { rewrite updates_snoc, Hrun1. bind_simpl. rewrite Hrun2. reflexivity. }
  assert (data' = data2) as -> by congruence.
  exists data2, outs, vl2.
  split; [exact Hfinal|]. split; [exact Hlen1|].
  split; [rewrite <- Hwin1; eapply gauge_at_insert; eauto|].
  split; [exact Hcur'|].
  split; [rewrite <- Hwin; apply channel_ok_cells, Hkeep, Hok|exact Hq].
Qed.

(** Before the window is full, the inputs of a fresh channel fill its
    cells from the left and zeros fill the rest. *)
Lemma cold_start_cells (w vs : list D) (n : nat) :
  length w = n -> (length vs < n)%nat ->
  chrono (length vs) w = drop (length vs) (replicate n d_zero ++ vs) ->
  w = vs ++ replicate (n - length vs) d_zero.
Proof.
  intros Hw Hk Hq. unfold chrono in Hq.
  rewrite drop_app_le in Hq by (rewrite length_replicate; lia).
  rewrite drop_replicate in Hq.
  apply app_inj_1 in Hq as [Hdrop Htake];
    [|rewrite length_drop, length_replicate; lia].
  rewrite <- (take_drop (length vs) w). congruence.
Qed.

(** On channels that can be updated ([calls_ok]), after [k >= N]
    updates of a channel, whatever calls on other
    channels lie between them and whatever the window held before, the
    value list of the last update holds the mean of the cells of the
    channel, and these cells are the last [N] values fed to the channel,
    in the order of the ring: nothing older takes part.  Where addition
    does not round, that is the mean of the last [N] values in any
    order. *)
Theorem steady_state_mean (s : data_set_t) (data : tsma_data_t D)
    (calls : list (nat * value_list_t D)) (c : nat) (vl : value_list_t D) :
  calls_ok data (calls ++ [(c, vl)]) = true ->
  (Z.to_nat (window data) <= length (inputs_on c (calls ++ [(c, vl)])))%nat ->
  exists data' outs vl',
    updates s data (calls ++ [(c, vl)]) = Ok (data', outs ++ [vl'])
    /\ length outs = length calls
    /\ gauge_at vl' c = Some (mean (window data) (cells data' c))
    /\ (exists p,
          cursor data' c = Some p
          /\ chrono (Z.to_nat p) (cells data' c)
             = lastn (Z.to_nat (window data))
                 (inputs_on c (calls ++ [(c, vl)])))
    /\ (ExactDouble D ->
        mean (window data) (cells data' c)
        = mean (window data)
            (lastn (Z.to_nat (window data))
               (inputs_on c (calls ++ [(c, vl)])))).
Proof.
  intros Hcalls Hfull.
  destruct (calls_ok_app _ _ _ Hcalls) as [_ Hlast].
  destruct (calls_ok_cons _ _ _ _ Hlast) as (Hok & _ & _).
  destruct (channel_ok_cursor _ _ Hok) as (p & Hcur & Hr).
  destruct (updates_last s data calls c vl p Hcalls Hcur)
    as (data' & outs & vl' & Hrun & Hlen & Hout & Hcur' & _ & Hq).
  rewrite (lastn_app_ge (Z.to_nat (window data))) in Hq;
    [|rewrite chrono_length; rewrite (channel_ok_cells _ _ Hok); lia|exact Hfull].
  exists data', outs, vl'. split; [exact Hrun|]. split; [exact Hlen|].
  split; [exact Hout|]. split; [eauto|].
  intros Hexact. unfold mean. f_equal.
  rewrite <- Hq. symmetry. apply d_sum_chrono.
Qed.

(** On channels that can be updated ([calls_ok]), after [k < N]
    updates of a fresh channel, the value list of
    the last update holds the mean of the cells of the channel, and
    these cells are the [k] values fed to it followed by [N - k] times
    [0.0]: the cells not yet written count as zero.  Where addition does
    not round, that is the sum of the [k] values divided by [N]. *)
Theorem cold_start_mean (s : data_set_t) (data : tsma_data_t D)
    (calls : list (nat * value_list_t D)) (c : nat) (vl : value_list_t D) :
  calls_ok data (calls ++ [(c, vl)]) = true ->
  fresh data c ->
  (length (inputs_on c (calls ++ [(c, vl)])) < Z.to_nat (window data))%nat ->
  exists data' outs vl',
    updates s data (calls ++ [(c, vl)]) = Ok (data', outs ++ [vl'])
    /\ length outs = length calls
    /\ gauge_at vl' c = Some (mean (window data) (cells data' c))
    /\ cells data' c
       = inputs_on c (calls ++ [(c, vl)])
         ++ replicate (Z.to_nat (window data)
                       - length (inputs_on c (calls ++ [(c, vl)]))) d_zero
    /\ (ExactDouble D ->
        mean (window data) (cells data' c)
        = d_div (d_sum (inputs_on c (calls ++ [(c, vl)])))
            (d_of_int (window data))).
Proof.
  intros Hcalls [Hcur Hzero] Hk.
  destruct (updates_last s data calls c vl 0 Hcalls Hcur)
    as (data' & outs & vl' & Hrun & Hlen & Hout & _ & Hcells & Hq).
  rewrite Z.add_0_l, Z.mod_small, Nat2Z.id in Hq by lia.
  simpl Z.to_nat in Hq. rewrite chrono_0, Hzero in Hq.
  pose proof (cold_start_cells _ _ _ Hcells Hk Hq) as Hw.
  exists data', outs, vl'. split; [exact Hrun|]. split; [exact Hlen|].
  split; [exact Hout|]. split; [exact Hw|].
  intros Hexact. unfold mean. f_equal. rewrite Hw. apply d_sum_zeros.
Qed.

End Means.

(** ** One call of [tsma_invoke], channel by channel *)

Section Apply.

Context {D : Type} `{Double D} {host : Host}.

Lemma is_selected_sources (data data' : tsma_data_t D) (nm : string) :
  data_sources data' = data_sources data ->
  is_selected data' nm = is_selected data nm.
Proof.
  intros Hsrc. unfold is_selected, data_sources_num. rewrite Hsrc. reflexivity.
Qed.

Lemma touched_sources (data data' : tsma_data_t D) (src : data_source_t) :
  data_sources data' = data_sources data ->
  touched data' src = touched data src.
Proof.
  intros Hsrc. unfold touched. rewrite (is_selected_sources _ _ _ Hsrc).
  reflexivity.
Qed.

Lemma kept_refl (data : tsma_data_t D) (vl : value_list_t D) (i : nat) :
  kept data data vl vl i.
Proof. repeat split. Qed.

Lemma kept_trans (d1 d2 d3 : tsma_data_t D) (v1 v2 v3 : value_list_t D)
    (i : nat) :
  kept d1 d2 v1 v2 i -> kept d2 d3 v2 v3 i -> kept d1 d3 v1 v3 i.
Proof.
  intros (Ha & Hb & Hc) (Ha' & Hb' & Hc'). repeat split; congruence.
Qed.

Lemma averaged_kept (d1 d2 d3 : tsma_data_t D) (v1 v2 v3 : value_list_t D)
    (i : nat) :
  averaged d1 d2 v1 v2 i -> kept d2 d3 v2 v3 i -> averaged d1 d3 v1 v3 i.
Proof.
  intros (p & g & Hp & Hg & Hp' & Hw & Hv) (Ha & Hb & Hc).
  exists p, g. rewrite Ha, Hb, Hc. auto.
Qed.

Lemma kept_averaged (d1 d2 d3 : tsma_data_t D) (v1 v2 v3 : value_list_t D)
    (i : nat) :
  window d2 = window d1 ->
  kept d1 d2 v1 v2 i -> averaged d2 d3 v2 v3 i -> averaged d1 d3 v1 v3 i.
Proof.
  intros Hwin (Ha & Hb & Hc) (p & g & Hp & Hg & Hp' & Hw & Hv).
  exists p, g. unfold gauge_at in *. rewrite <- Ha, <- Hb, <- Hc, <- Hwin. auto.
Qed.

Lemma int_of_size_t_small (i : nat) (n : Z) :
  1 <= n -> (Z.of_nat i + 1) * n <= INT_MAX ->
  int_of_size_t (Z.of_nat i) = Z.of_nat i.
Proof.
  intros Hn Hi. unfold int_of_size_t, INT_MAX in *.
  assert (Z.of_nat i < 2 ^ 31) by nia.
  rewrite Z.mod_small by lia.
  destruct (Z.ltb_spec (Z.of_nat i) (2 ^ 31)); lia.
Qed.

(** One update, in the words of [averaged] and [kept]. *)
Lemma tsma_invoke_gauge_averaged (s : data_set_t) (vl : value_list_t D)
    (data : tsma_data_t D) (c : nat) :
  channel_ok data c = true ->
  is_Some (gauge_at vl c) ->
  exists vl' data',
    tsma_invoke_gauge s vl data (Z.of_nat c) = Ok (0, vl', data')
    /\ window data' = window data
    /\ data_sources data' = data_sources data
    /\ length (values vl') = length (values vl)
    /\ (forall c', channel_ok data c' = true -> channel_ok data' c' = true)
    /\ averaged data data' vl vl' c
    /\ (forall i, i <> c -> kept data data' vl vl' i).
Proof.
  intros Hok [g Hg].
  destruct (channel_ok_cursor _ _ Hok) as (p & Hp & _).
  destruct (tsma_invoke_gauge_spec s vl data c p g Hok Hp Hg)
    as (data' & Hrun & Hwin & Hsrc & Hcur & Hcells & Hframe & Hkeep).
  eexists _, data'. split; [exact Hrun|].
  assert (Hc : (c < length (values vl))%nat).
  { unfold gauge_at in Hg. destruct (values vl !! c) eqn:Hv; [|discriminate].
    eapply lookup_lt_Some; eauto. }
  split; [exact Hwin|]. split; [exact Hsrc|].
  split; [simpl; apply length_insert|]. split; [exact Hkeep|]. split.
  - exists p, g. simpl. rewrite list_lookup_insert_eq by exact Hc. auto.
  - intros i Hi. destruct (Hframe i Hi) as [Hci Hwi].
    repeat split; auto. simpl. apply list_lookup_insert_ne. congruence.
Qed.

Lemma invoke_loop_spec (s : data_set_t) :
  forall (srcs : list data_source_t) (i0 : nat) (vl : value_list_t D)
         (data : tsma_data_t D),
    (forall j src, srcs !! j = Some src -> touched data src = true ->
       channel_ok data (i0 + j) = true /\ is_Some (gauge_at vl (i0 + j))) ->
    exists vl' data',
      invoke_loop s (Z.of_nat i0) srcs vl data = Ok (vl', data')
      /\ window data' = window data
      /\ data_sources data' = data_sources data
      /\ length (values vl') = length (values vl)
      /\ (forall c, channel_ok data c = true -> channel_ok data' c = true)
      /\ (forall i, (i < i0)%nat \/ (i0 + length srcs <= i)%nat ->
            kept data data' vl vl' i)
      /\ (forall j src, srcs !! j = Some src ->
            if touched data src
            then averaged data data' vl vl' (i0 + j)
            else kept data data' vl vl' (i0 + j)).
Proof.
  induction srcs as [|src rest IH]; intros i0 vl data Hpre.
  - exists vl, data. simpl. repeat split; auto. intros j src Hj.
    rewrite lookup_nil in Hj. discriminate.
  - assert (Hbody : exists vl1 data1,
      (if negb (is_selected data (name src)) then Ok (vl, data)
       else if is_gauge (type src) then
         '(_, vl, data) ← tsma_invoke_gauge s vl data (int_of_size_t (Z.of_nat i0));
         Ok (vl, data)
       else Ok (vl, data)) = Ok (vl1, data1)
      /\ window data1 = window data
      /\ data_sources data1 = data_sources data
      /\ length (values vl1) = length (values vl)
      /\ (forall c, channel_ok data c = true -> channel_ok data1 c = true)
      /\ (if touched data src then averaged data data1 vl vl1 i0
          else kept data data1 vl vl1 i0)
      /\ (forall i, i <> i0 -> kept data data1 vl vl1 i)).
    { destruct (touched data src) eqn:Ht.
      - destruct (Hpre 0%nat src eq_refl Ht) as [Hok Hg].
        rewrite Nat.add_0_r in Hok, Hg.
        unfold touched in Ht. apply andb_prop in Ht as [Hsel Hgauge].
        rewrite Hsel, Hgauge. simpl negb. cbn iota.
        destruct (channel_ok_inv _ _ Hok)
          as (_ & _ & _ & _ & _ & _ & HN & Hint & _ & _).
        rewrite (int_of_size_t_small _ _ HN Hint).
        destruct (tsma_invoke_gauge_averaged s vl data i0 Hok Hg)
          as (vl1 & data1 & Hrun & Hrest).
        exists vl1, data1. rewrite Hrun. bind_simpl. split; [reflexivity|].
        exact Hrest.
      - exists vl, data. split.
        + unfold touched in Ht.
          destruct (is_selected data (name src)); simpl in *; [|reflexivity].
          rewrite Ht. reflexivity.
        + repeat split; auto. }
    destruct Hbody as (vl1 & data1 & Hrun1 & Hwin1 & Hsrc1 & Hlen1 & Hkeep1
                       & Hhere & Hframe).
    destruct (IH (S i0) vl1 data1) as (vl' & data' & Hrun & Hwin & Hsrc & Hlen
                                        & Hkeep & Hout & Hin).
    { intros j src' Hj Ht'. rewrite (touched_sources _ _ _ Hsrc1) in Ht'.
      destruct (Hpre (S j) src' Hj Ht') as [Hok Hg].
      replace (i0 + S j)%nat with (S i0 + j)%nat in * by lia.
      split; [auto|].
      destruct (Hframe (S i0 + j)%nat ltac:(lia)) as (Hv & _ & _).
      unfold gauge_at in *. rewrite Hv. exact Hg. }
    exists vl', data'. split.
    { cbn [invoke_loop]. rewrite Hrun1. bind_simpl.
      replace (Z.of_nat i0 + 1) with (Z.of_nat (S i0)) by lia. exact Hrun. }
    split; [congruence|]. split; [congruence|]. split; [congruence|].
    split; [auto|]. split.
    + intros i Hi. simpl in Hi.
      apply (kept_trans _ data1 _ _ vl1); [apply Hframe|apply Hout]; lia.
    + intros [|j] src' Hj; simpl in Hj.
      * injection Hj as <-. rewrite Nat.add_0_r.
        specialize (Hout i0 ltac:(lia)).
        destruct (touched data src).
        -- eapply averaged_kept; eauto.
        -- eapply kept_trans; eauto.
      * specialize (Hin j src' Hj).
        rewrite (touched_sources _ _ _ Hsrc1) in Hin.
        replace (i0 + S j)%nat with (S i0 + j)%nat by lia.
        specialize (Hframe (S i0 + j)%nat ltac:(lia)).
        destruct (touched data src').
        -- eapply kept_averaged; eauto.
        -- eapply kept_trans; eauto.
Qed.

Lemma record_ok_inv (data : tsma_data_t D) (s : data_set_t)
    (vl : value_list_t D) :
  record_ok data s vl = true ->
  forall j src, ds s !! j = Some src -> touched data src = true ->
    channel_ok data j = true /\ is_Some (gauge_at vl j).
Proof.
  unfold record_ok. rewrite forallb_forall. intros Hall j src Hj Ht.
  specialize (Hall (j, src)). simpl in Hall. rewrite Ht in Hall. simpl in Hall.
  assert (Hin : In (j, src) (imap pair (ds s))).
  { apply list_elem_of_In, elem_of_lookup_imap. eauto. }
  apply Hall, andb_prop in Hin as [Hok Hg].
  apply bool_decide_eq_true in Hg. auto.
Qed.

(** The whole call: once the windows are there and the value list fits
    them, the call goes through every data source, averages the ones it
    selects that are gauges and leaves the others as they are. *)
Lemma tsma_invoke_spec (h h0 : heap) (s : data_set_t) (vl : value_list_t D)
    (data data0 : tsma_data_t D) :
  allocate_buffer h s data = Ok (0, data0, h0) ->
  record_ok data0 s vl = true ->
  exists vl' data',
    tsma_invoke h (Some s) (Some vl) (Some (Some data))
    = Ok (FC_TARGET_CONTINUE, Some vl', Some (Some data'), h0)
    /\ window data' = window data0
    /\ data_sources data' = data_sources data0
    /\ length (values vl') = length (values vl)
    /\ (forall i, (length (ds s) <= i)%nat -> kept data0 data' vl vl' i)
    /\ (forall i src, ds s !! i = Some src ->
          if touched data0 src
          then averaged data0 data' vl vl' i
          else kept data0 data' vl vl' i).
Proof.
  intros Halloc Hrec.
  destruct (invoke_loop_spec s (ds s) 0 vl data0 (record_ok_inv _ _ _ Hrec))
    as (vl' & data' & Hrun & Hwin & Hsrc & Hlen & _ & Hout & Hin).
  exists vl', data'. split.
  - unfold tsma_invoke. rewrite Halloc. bind_simpl. simpl.
    change (Z.of_nat 0) with 0 in Hrun. rewrite Hrun. reflexivity.
  - split; [exact Hwin|]. split; [exact Hsrc|]. split; [exact Hlen|].
    split; [intros i Hi; apply Hout; lia|]. exact Hin.
Qed.

End Apply.

(** ** Names without regard to case *)

Lemma code_inj (a b : ascii) : code a = code b -> a = b.
Proof.
  unfold code. intros Hab. apply N2Z.inj in Hab.
  rewrite <- (ascii_N_embedding a), <- (ascii_N_embedding b). congruence.
Qed.

Lemma tolower_nul (c : ascii) : code (tolower c) = 0 <-> code c = 0.
Proof.
  destruct c as [[] [] [] [] [] [] [] []]; vm_compute; split; congruence.
Qed.

Lemma strcasecmp_eq_nocase (a b : string) :
  strcasecmp a b = 0 <-> eq_nocase a b.
Proof.
  unfold eq_nocase. revert b.
  induction a as [|c1 r1 IH]; intros [|c2 r2]; simpl.
  - split; reflexivity.
  - pose proof (tolower_nul c2) as Hnul.
    destruct (Z.eqb_spec (code c2) 0) as [Hz|Hz]; simpl.
    + split; [reflexivity|]. intros _. lia.
    + split; [|discriminate]. intros Hd. exfalso. apply Hz, Hnul. lia.
  - pose proof (tolower_nul c1) as Hnul.
    destruct (Z.eqb_spec (code c1) 0) as [Hz|Hz]; simpl.
    + split; [reflexivity|]. intros _. lia.
    + split; [|discriminate]. intros Hd. exfalso. apply Hz, Hnul. lia.
  - pose proof (tolower_nul c1) as Hnul1. pose proof (tolower_nul c2) as Hnul2.
    destruct (Z.eqb_spec (code (tolower c1) - code (tolower c2)) 0) as [Hd|Hd];
      simpl.
    + assert (Hlow : tolower c1 = tolower c2) by (apply code_inj; lia).
      destruct (Z.eqb_spec (code c1) 0) as [Hz1|Hz1];
        destruct (Z.eqb_spec (code c2) 0) as [Hz2|Hz2]; simpl.
      * split; reflexivity.
      * exfalso. apply Hz2, Hnul2. rewrite <- Hlow. apply Hnul1, Hz1.
      * exfalso. apply Hz1, Hnul1. rewrite Hlow. apply Hnul2, Hz2.
      * rewrite IH, Hlow. split; [congruence|]. intros Heq.
        injection Heq. auto.
    + split; [intros Hz; contradiction|]. intros Heq. exfalso. apply Hd.
      destruct (Z.eqb_spec (code c1) 0) as [Hz1|Hz1];
        destruct (Z.eqb_spec (code c2) 0) as [Hz2|Hz2]; simpl in Heq;
        try discriminate.
      * apply Hnul1 in Hz1. apply Hnul2 in Hz2. lia.
      * injection Heq as Hlow _. rewrite Hlow. lia.
Qed.

(** ** The selector *)

Section Selector.

Context {D : Type} `{Double D}.

Lemma match_index_bounds (nm : string) (sources : list string) (j : Z) :
  j <= match_index nm sources j <= j + Z.of_nat (length sources).
Proof.
  revert j. induction sources as [|src rest IH]; intros j; simpl.
  - lia.
  - destruct (strcasecmp nm src =? 0); [lia|]. specialize (IH (j + 1)). lia.
Qed.

Lemma match_index_found (nm : string) (sources : list string) (j : Z) :
  match_index nm sources j < j + Z.of_nat (length sources)
  <-> exists src, src ∈ sources /\ eq_nocase nm src.
Proof.
  revert j. induction sources as [|src rest IH]; intros j; simpl.
  - split; [lia|]. intros (src & Hin & _). inversion Hin.
  - destruct (Z.eqb_spec (strcasecmp nm src) 0) as [Hz|Hz].
    + split; [|lia]. intros _. exists src. split; [left|].
      apply strcasecmp_eq_nocase, Hz.
    + specialize (IH (j + 1)). split.
      * intros Hlt. destruct IH as [IH _].
        destruct IH as (e & Hin & He); [lia|]. exists e. split; [right|]; auto.
      * intros (e & Hin & He). inversion Hin; subst.
        -- exfalso. apply Hz, strcasecmp_eq_nocase, He.
        -- destruct IH as [_ IH]. specialize (IH (ex_intro _ e (conj H2 He))).
           lia.
Qed.

(** The selector of [tsma_invoke]: without an array of data sources
    every name is selected, with one exactly the names it lists. *)
Lemma is_selected_spec (data : tsma_data_t D) (nm : string) :
  is_selected data nm = true
  <-> match data_sources data with
      | None => True
      | Some sources => exists src, src ∈ sources /\ eq_nocase nm src
      end.
Proof.
  unfold is_selected, data_sources_num.
  destruct (data_sources data) as [sources|]; [|split; auto].
  rewrite <- (match_index_found nm sources 0).
  destruct (Z.leb_spec (Z.of_nat (length sources)) (match_index nm sources 0));
    simpl; split; intros; try lia; try discriminate; reflexivity.
Qed.

End Selector.

(** ** The first record: [allocate_buffer] *)

Section Allocation.

Context {D : Type} `{Double D} {host : Host}.

Lemma zero_loop_zeros (n fuel i : nat) :
  (i + fuel <= n)%nat -> Z.of_nat (i + fuel) <= INT_MAX ->
  zero_loop (replicate n d_zero) (Z.of_nat i) fuel = Ok (replicate n d_zero).
Proof.
  revert i. induction fuel as [|fuel IH]; intros i Hn Hint; simpl.
  - reflexivity.
  - rewrite store_insert by (rewrite length_replicate; lia). bind_simpl.
    rewrite list_insert_id by (apply lookup_replicate_2; lia).
    unfold int_add. rewrite int_of_in by (unfold INT_MIN; lia). bind_simpl.
    replace (Z.of_nat i + 1) with (Z.of_nat (S i)) by lia.
    apply IH; lia.
Qed.

(** With memory at hand the first record gets [ds_num * window] cells
    and [window] cursors, all zero. *)
Lemma allocate_buffer_first (h h1 h2 : heap) (s : data_set_t)
    (data : tsma_data_t D) :
  window_buffer data = None ->
  1 <= window data <= INT_MAX ->
  ds_num s * window data <= INT_MAX ->
  alloc h = (true, h1) -> alloc h1 = (true, h2) ->
  allocate_buffer h s data
  = Ok (0, set_windows data
             (Some (replicate (Z.to_nat (window data)) 0))
             (Some (replicate (Z.to_nat (ds_num s * window data)) d_zero)),
        h2).
Proof.
  intros Hnull HN Hcells Hh Hh1. unfold allocate_buffer, calloc.
  rewrite Hnull, Hh, Hh1.
  set (N := window data) in *.
  assert (Hds : 0 <= ds_num s) by (unfold ds_num; lia).
  unfold INT_MAX in *.
  assert (HsN : to_size_t N = N) by (unfold to_size_t; apply Z.mod_small; lia).
  rewrite HsN. unfold to_size_t, sizeof_int, sizeof_double, SIZE_MAX.
  rewrite !Z.mod_small by nia.
  destruct (Z.leb_spec (1 * (N * 4)) (2 ^ 64 - 1)); [|lia].
  destruct (Z.leb_spec (ds_num s * (N * 8)) (2 ^ 64 - 1)); [|nia].
  simpl. unfold zeroed.
  replace (1 * (N * 4) / 4) with N by (rewrite Z.mul_1_l, Z.div_mul; lia).
  replace (ds_num s * (N * 8) / 8) with (ds_num s * N)
    by (rewrite Z.mul_assoc, Z.div_mul; lia).
  pose proof (zero_loop_zeros (Z.to_nat (ds_num s * N))
                (Z.to_nat (ds_num s * N)) 0) as Hzero.
  change (Z.of_nat 0) with 0 in Hzero. simpl in Hzero.
  rewrite Hzero by (unfold INT_MAX; lia).
  reflexivity.
Qed.

(** The channels that are in order after the first record: those that
    have a cursor among the [window] cursors. *)
Lemma allocate_buffer_fresh (h h1 h2 : heap) (s : data_set_t)
    (data : tsma_data_t D) (c : nat) :
  window_buffer data = None ->
  1 <= window data <= INT_MAX ->
  ds_num s * window data <= INT_MAX ->
  alloc h = (true, h1) -> alloc h1 = (true, h2) ->
  Z.of_nat c < ds_num s -> Z.of_nat c < window data ->
  exists data0,
    allocate_buffer h s data = Ok (0, data0, h2)
    /\ window data0 = window data
    /\ data_sources data0 = data_sources data
    /\ channel_ok data0 c = true
    /\ fresh data0 c.
Proof.
  intros Hnull HN Hcells Hh Hh1 Hc Hcur.
  eexists. split; [apply (allocate_buffer_first h h1 h2); auto|].
  split; [reflexivity|]. split; [reflexivity|].
  set (N := window data) in *.
  assert (Hptr : replicate (Z.to_nat N) 0 !! c = Some 0)
    by (apply lookup_replicate_2; lia).
  split.
  - unfold channel_ok. simpl. fold N. rewrite Hptr, length_replicate.
    assert ((Z.of_nat c + 1) * N <= ds_num s * N) by nia.
    assert (0 <= ds_num s * N) by (unfold ds_num; nia).
    cbn iota. rewrite Z2Nat.id by exact H1.
    repeat (apply andb_true_intro; split); lia.
  - unfold fresh, cursor, cells. simpl. fold N. split; [exact Hptr|].
    rewrite drop_replicate, take_replicate. f_equal. nia.
Qed.

End Allocation.

(** ** Construction *)

Section Construction.

#[local] Arguments strcasecmp : simpl never.

Context {D : Type} `{Double D} {host : Host}.

Lemma tsma_config_add_data_source_window (h h' : heap)
    (data data' : tsma_data_t D) (ci : oconfig_item_t D) (status : Z) :
  tsma_config_add_data_source h data ci = (status, data', h') ->
  window data' = window data
  /\ window_ptr data' = window_ptr data
  /\ window_buffer data' = window_buffer data.
Proof.
  unfold tsma_config_add_data_source. intros Hadd.
  destruct (Z.of_nat (length (ci_values ci)) <? 1);
    [injection Hadd as <- <- <-; auto|].
  destruct (negb (forallb is_string (ci_values ci)));
    [injection Hadd as <- <- <-; auto|].
  destruct (alloc h) as [[] h1]; simpl in Hadd;
    [|injection Hadd as <- <- <-; auto].
  destruct (copy_strings h1 _ _) as [sources h2].
  injection Hadd as <- <- <-. auto.
Qed.

(** A construction that succeeds has stored what the options asked
    for, whatever that is. *)
Lemma create_loop_window (cs : list (oconfig_item_t D)) :
  forall (h h' : heap) (data data' : tsma_data_t D),
    create_loop h data cs = Ok (0, data', h') ->
    window data' = fold_left window_step cs (window data).
Proof.
  induction cs as [|child cs IH]; intros h h' data data' Hrun; simpl in Hrun.
  - injection Hrun as <- <-. reflexivity.
  - simpl. unfold window_step at 2.
    destruct (strcasecmp "Window" (key child) =? 0).
    + unfold tsma_config_set_int in Hrun.
      destruct (ci_values child) as [|[s|number|b] [|v vs]];
        try (bind_simpl in Hrun; simpl in Hrun; discriminate).
      destruct (d_trunc number) as [z|]; [|discriminate].
      destruct (in_int z); [|discriminate].
      bind_simpl in Hrun. simpl in Hrun.
      apply IH in Hrun. exact Hrun.
    + destruct (strcasecmp "DataSource" (key child) =? 0).
      * bind_simpl in Hrun.
        destruct (tsma_config_add_data_source h data child)
          as [[status data1] h1] eqn:Hadd.
        destruct (Z.eqb_spec status 0) as [->|Hne]; simpl in Hrun.
        -- apply IH in Hrun.
           apply tsma_config_add_data_source_window in Hadd as (Hw & _).
           congruence.
        -- injection Hrun as Hst _ _. congruence.
      * bind_simpl in Hrun. simpl in Hrun. apply IH in Hrun. exact Hrun.
Qed.

Lemma tsma_create_window (h h' : heap) (ci : oconfig_item_t D)
    (ud : option (tsma_data_t D)) (data : tsma_data_t D) :
  tsma_create h ci ud = Ok (0, Some data, h') ->
  window data = window_of ci.
Proof.
  unfold tsma_create. intros Hrun.
  destruct (alloc h) as [[] h1]; simpl in Hrun.
  - destruct (create_loop h1 _ (children ci)) as [[[status data1] h2]|] eqn:Hloop;
      bind_simpl in Hrun; [|discriminate].
    destruct (Z.eqb_spec status 0) as [->|Hne]; simpl in Hrun.
    + injection Hrun as <- <-. apply create_loop_window in Hloop. exact Hloop.
    + injection Hrun as Hst _ _. congruence.
  - injection Hrun as Hst _ _. pose proof ENOMEM_pos. lia.
Qed.

Lemma copy_strings_served (vs : list (oconfig_value_t D)) :
  forall old : list string,
    copy_strings [] old vs = (old ++ strings_of vs, []).
Proof.
  induction vs as [|[s|number|b] vs IH]; intros old; simpl.
  - rewrite app_nil_r. reflexivity.
  - rewrite IH, <- app_assoc. reflexivity.
  - apply IH.
  - apply IH.
Qed.

(** With memory at hand every well-formed block is accepted. *)
Lemma create_loop_served (cs : list (oconfig_item_t D)) :
  forall data : tsma_data_t D,
    forallb option_ok cs = true ->
    exists data',
      create_loop [] data cs = Ok (0, data', [])
      /\ window data' = fold_left window_step cs (window data)
      /\ data_sources data' = fold_left sources_step cs (data_sources data)
      /\ window_ptr data' = window_ptr data
      /\ window_buffer data' = window_buffer data.
Proof.
  induction cs as [|child cs IH]; intros data Hok; simpl in Hok.
  - exists data. repeat split.
  - apply andb_prop in Hok as [Hchild Hcs].
    simpl. unfold option_ok in Hchild. unfold window_step at 2.
    unfold sources_step at 2.
    destruct (strcasecmp "Window" (key child) =? 0).
    + unfold tsma_config_set_int.
      destruct (ci_values child) as [|[s|number|b] [|v vs]]; try discriminate.
      destruct (d_trunc number) as [z|]; [|discriminate].
      rewrite Hchild. bind_simpl. simpl.
      destruct (IH (set_window data z) Hcs) as (data' & Hrun & Hw & Hs & Hp & Hb).
      exists data'. auto.
    + destruct (strcasecmp "DataSource" (key child) =? 0).
      * apply andb_prop in Hchild as [Hnum Hstr].
        unfold tsma_config_add_data_source.
        destruct (Z.ltb_spec (Z.of_nat (length (ci_values child))) 1); [lia|].
        rewrite Hstr. simpl. rewrite copy_strings_served. bind_simpl. simpl.
        match goal with |- context [create_loop [] ?d cs] =>
          destruct (IH d Hcs) as (data' & Hrun & Hw & Hs & Hp & Hb) end.
        exists data'. auto.
      * bind_simpl. simpl.
        destruct (IH data Hcs) as (data' & Hrun & Hw & Hs & Hp & Hb).
        exists data'. auto.
Qed.

Lemma sources_step_fold (cs : list (oconfig_item_t D)) :
  forall o : option (list string),
    forallb option_ok cs = true ->
    o <> Some [] ->
    fold_left sources_step cs o <> Some []
    /\ default [] (fold_left sources_step cs o)
       = default [] o ++ concat (map sources_of_option cs).
Proof.
  induction cs as [|child cs IH]; intros o Hok Ho; simpl in *.
  - rewrite app_nil_r. auto.
  - apply andb_prop in Hok as [Hchild Hcs].
    unfold sources_step at 2 4. unfold sources_of_option at 1.
    unfold option_ok in Hchild.
    destruct (strcasecmp "Window" (key child) =? 0); [apply IH; auto|].
    destruct (strcasecmp "DataSource" (key child) =? 0); [|apply IH; auto].
    apply andb_prop in Hchild as [Hnum Hstr].
    destruct (IH (Some (default [] o ++ strings_of (ci_values child))) Hcs)
      as [Hne Heq].
    { destruct (ci_values child) as [|[s|number|b] vs]; simpl in *;
        try discriminate; try lia.
      intros Hnil. injection Hnil as Hnil.
      apply app_eq_nil in Hnil as [_ Hnil]. discriminate. }
    split; [exact Hne|]. rewrite Heq. simpl. rewrite <- app_assoc. reflexivity.
Qed.

(** The instance [tsma_create] makes when memory is at hand: the window
    asked for, the data sources listed, no windows yet. *)
Lemma tsma_create_served (ci : oconfig_item_t D)
    (ud : option (tsma_data_t D)) :
  forallb option_ok (children ci) = true ->
  exists data,
    tsma_create [] ci ud = Ok (0, Some data, [])
    /\ window data = window_of ci
    /\ data_sources data <> Some []
    /\ default [] (data_sources data) = sources_of ci
    /\ window_ptr data = None
    /\ window_buffer data = None.
Proof.
  intros Hok. unfold tsma_create. simpl.
  match goal with |- context [create_loop [] ?d _] =>
    destruct (create_loop_served (children ci) d Hok)
      as (data & Hrun & Hw & Hs & Hp & Hb) end.
  exists data. rewrite Hrun. bind_simpl. simpl.
  destruct (sources_step_fold (children ci) None Hok ltac:(discriminate))
    as [Hne Heq].
  simpl in Hs. rewrite <- Hs in Hne, Heq.
  repeat split; auto.
Qed.

End Construction.

(** ** The entry points *)

Section EntryPoints.

Context {D : Type} `{Double D} {host : Host}.

#[local] Arguments strcasecmp : simpl never.

Lemma allocate_buffer_sources (h h0 : heap) (s : data_set_t)
    (data data0 : tsma_data_t D) (status : Z) :
  allocate_buffer h s data = Ok (status, data0, h0) ->
  window data0 = window data /\ data_sources data0 = data_sources data.
Proof.
  unfold allocate_buffer. intros Hrun.
  destruct (window_buffer data); [injection Hrun as _ <- _; auto|].
  destruct (calloc h _ _) as [p h1]. destruct (calloc h1 _ _) as [b h2].
  destruct b as [bytes|]; simpl in Hrun.
  - destruct p as [bytes'|]; simpl in Hrun.
    + destruct (zero_loop _ _ _); bind_simpl in Hrun; [|discriminate].
      injection Hrun as _ <- _. auto.
    + injection Hrun as _ <- _. auto.
  - injection Hrun as _ <- _. auto.
Qed.

Lemma touched_gauge (data : tsma_data_t D) (src : data_source_t) :
  touched data src = true
  <-> is_selected data (name src) = true /\ type src = DS_TYPE_GAUGE.
Proof.
  unfold touched. rewrite andb_true_iff.
  destruct (type src); simpl; intuition congruence.
Qed.

(** For a record that fits the windows ([record_ok]): without data
    sources configured every channel is selected;
    with some, exactly the channels whose name equals one of them
    without regard to case.  A call averages the selected gauges and
    hands every channel that is not selected back as it came. *)
Theorem selector_filtering (h h0 : heap) (s : data_set_t)
    (vl : value_list_t D) (data data0 : tsma_data_t D) :
  data_sources data <> Some [] ->
  allocate_buffer h s data = Ok (0, data0, h0) ->
  record_ok data0 s vl = true ->
  (forall nm,
     is_selected data nm = true
     <-> default [] (data_sources data) = []
         \/ exists e, e ∈ default [] (data_sources data) /\ eq_nocase nm e)
  /\ exists vl' data',
       tsma_invoke h (Some s) (Some vl) (Some (Some data))
       = Ok (FC_TARGET_CONTINUE, Some vl', Some (Some data'), h0)
       /\ forall i src, ds s !! i = Some src ->
            (is_selected data (name src) = true ->
             type src = DS_TYPE_GAUGE -> averaged data0 data' vl vl' i)
            /\ (is_selected data (name src) = false ->
                kept data0 data' vl vl' i).
Proof.
  intros Hne Halloc Hrec. split.
  - intros nm. rewrite is_selected_spec.
    destruct (data_sources data) as [[|e l]|]; simpl.
    + congruence.
    + split; [auto|]. intros [Hnil|Hin]; [discriminate|exact Hin].
    + split; auto.
  - destruct (tsma_invoke_spec h h0 s vl data data0 Halloc Hrec)
      as (vl' & data' & Hrun & _ & _ & _ & _ & Hin).
    destruct (allocate_buffer_sources _ _ _ _ _ _ Halloc) as [_ Hsrc].
    exists vl', data'. split; [exact Hrun|].
    intros i src Hi. specialize (Hin i src Hi).
    pose proof (touched_gauge data0 src) as Ht.
    rewrite (is_selected_sources _ _ _ Hsrc) in Ht.
    split.
    + intros Hsel Hg. destruct (touched data0 src); [exact Hin|].
      destruct Ht as [_ Ht]. discriminate Ht; auto.
    + intros Hsel. destruct (touched data0 src); [|exact Hin].
      destruct Ht as [Ht _]. destruct Ht; congruence.
Qed.

(** For a record that fits the windows ([record_ok]): a selected
    channel that is no gauge comes back as it went in,
    its cells and its cursor are not written, the gauges of the record
    are averaged all the same, and the call answers
    [FC_TARGET_CONTINUE]. *)
Theorem non_gauge_pass_through (h h0 : heap) (s : data_set_t)
    (vl : value_list_t D) (data data0 : tsma_data_t D) :
  allocate_buffer h s data = Ok (0, data0, h0) ->
  record_ok data0 s vl = true ->
  exists vl' data',
    tsma_invoke h (Some s) (Some vl) (Some (Some data))
    = Ok (FC_TARGET_CONTINUE, Some vl', Some (Some data'), h0)
    /\ forall i src, ds s !! i = Some src ->
         is_selected data (name src) = true ->
         (type src <> DS_TYPE_GAUGE -> kept data0 data' vl vl' i)
         /\ (type src = DS_TYPE_GAUGE -> averaged data0 data' vl vl' i).
Proof.
  intros Halloc Hrec.
  destruct (tsma_invoke_spec h h0 s vl data data0 Halloc Hrec)
    as (vl' & data' & Hrun & _ & _ & _ & _ & Hin).
  destruct (allocate_buffer_sources _ _ _ _ _ _ Halloc) as [_ Hsrc].
  exists vl', data'. split; [exact Hrun|].
  intros i src Hi Hsel. specialize (Hin i src Hi).
  pose proof (touched_gauge data0 src) as Ht.
  rewrite (is_selected_sources _ _ _ Hsrc) in Ht.
  split; intros Hg.
  - destruct (touched data0 src); [|exact Hin].
    destruct Ht as [Ht _]. destruct Ht; congruence.
  - destruct (touched data0 src); [exact Hin|].
    destruct Ht as [_ Ht]. discriminate Ht; auto.
Qed.

(** C8: with a null data set, a null value list, a null [user_data] or
    no instance behind [user_data] the call answers [- EINVAL], which
    is negative, and hands value list, instance and allocator back
    untouched. *)
Theorem invalid_argument (h : heap) (s : option data_set_t)
    (vl : option (value_list_t D))
    (user_data : option (option (tsma_data_t D))) :
  tsma_invoke h None vl user_data = Ok (- EINVAL, vl, user_data, h)
  /\ tsma_invoke h s None user_data = Ok (- EINVAL, None, user_data, h)
  /\ tsma_invoke h s vl None = Ok (- EINVAL, vl, None, h)
  /\ tsma_invoke h s vl (Some None) = Ok (- EINVAL, vl, Some None, h)
  /\ - EINVAL < 0.
Proof.
  pose proof EINVAL_pos.
  unfold tsma_invoke. split; [reflexivity|].
  split; [destruct s; reflexivity|].
  split; [destruct s, vl; reflexivity|].
  split; [destruct s, vl; reflexivity|lia].
Qed.

(** C9: [tsma_destroy] answers [0] and leaves null behind
    [user_data]; called again on what it left, it answers [0] again and
    hands nothing to [free]. *)
Theorem destroy_idempotent (cell : option (tsma_data_t D)) :
  let '(status, user_data, freed) := tsma_destroy (Some cell) in
  status = 0
  /\ user_data = Some None
  /\ tsma_destroy user_data = (0, Some None, []).
Proof. simpl. repeat split. Qed.

Lemma window_step_others (cs : list (oconfig_item_t D)) (w : Z) :
  forallb (fun child => negb (strcasecmp "Window" (key child) =? 0)) cs = true ->
  fold_left window_step cs w = w.
Proof.
  revert w. induction cs as [|child cs IH]; intros w Hno; simpl in *.
  - reflexivity.
  - apply andb_prop in Hno as [Hchild Hcs]. rewrite (IH _ Hcs).
    unfold window_step. destruct (strcasecmp "Window" (key child) =? 0);
      [discriminate|reflexivity].
Qed.

(** C5, as the code has it: after a construction that succeeds the
    window size is what the block asks for, [1] without a [Window]
    option and else the integral part of the number of the last one,
    whatever its sign. *)
Theorem window_configured (h h' : heap) (ci : oconfig_item_t D)
    (ud : option (tsma_data_t D)) (data : tsma_data_t D) :
  tsma_create h ci ud = Ok (0, Some data, h') ->
  window data = window_of ci
  /\ (forallb (fun child => negb (strcasecmp "Window" (key child) =? 0))
        (children ci) = true ->
      window data = 1).
Proof.
  intros Hrun. apply tsma_create_window in Hrun. split; [exact Hrun|].
  intros Hno. rewrite Hrun. apply window_step_others, Hno.
Qed.

(** C10, as the code has it: a [Window] option with one number whose
    integral part fits [int] is accepted, and the window size is that
    integral part: a fraction is cut off, not refused.  The option is
    the last [Window] option of a block whose options are all well
    formed, and memory is at hand. *)
Theorem window_truncated (ci : oconfig_item_t D)
    (ud : option (tsma_data_t D)) (pre post cs : list (oconfig_item_t D))
    (k : string) (number : D) (z : Z) :
  children ci = pre ++ oconfig_item k [OCONFIG_TYPE_NUMBER number] cs :: post ->
  strcasecmp "Window" k = 0 ->
  d_trunc number = Some z ->
  forallb option_ok (children ci) = true ->
  forallb (fun child => negb (strcasecmp "Window" (key child) =? 0)) post
  = true ->
  exists data,
    tsma_create [] ci ud = Ok (0, Some data, [])
    /\ window data = z.
Proof.
  intros Hcs Hk Hz Hok Hpost.
  destruct (tsma_create_served ci ud Hok) as (data & Hrun & Hw & _).
  exists data. split; [exact Hrun|].
  rewrite Hw. unfold window_of. rewrite Hcs, fold_left_app. simpl.
  rewrite (window_step_others _ _ Hpost).
  unfold window_step. simpl. rewrite Hk, Hz. reflexivity.
Qed.

End EntryPoints.

(** ** The theorems at sample inputs *)

Local Open Scope string_scope.
Local Open Scope list_scope.
Local Open Scope Z_scope.

#[local] Existing Instance linux.

(** [started] is what the first record leaves. *)
Lemma started_first_record {D : Type} `{Double D} (names : list string)
    (w : Z) :
  1 <= w <= INT_MAX ->
  Z.of_nat (length names) * w <= INT_MAX ->
  allocate_buffer [] (gauges names) (created w None)
  = Ok (0, started (Z.of_nat (length names)) w, []).
Proof.
  intros Hw Hcells.
  assert (Hnum : ds_num (gauges names) = Z.of_nat (length names)).
  { unfold ds_num, gauges. simpl. rewrite length_map. reflexivity. }
  rewrite (allocate_buffer_first [] [] []); simpl; auto.
  - rewrite Hnum. reflexivity.
  - rewrite Hnum. exact Hcells.
Qed.

(** The examples of the specification in binary64: a window of four
    cells fed [10] and [20], and a window of three fed [1] to [5]. *)
Example cold_start_binary64 :
  exists data',
    updates (gauges ["temp"]) (started (D := float) 1 4)
      [(0%nat, readings [10%float]); (0%nat, readings [20%float])]
    = Ok (data', [readings [2.5%float]; readings [7.5%float]]).
Proof. eexists. reflexivity. Qed.

Example steady_state_binary64 :
  exists data',
    updates (gauges ["temp"]) (started (D := float) 1 3)
      [(0%nat, readings [1%float]); (0%nat, readings [2%float]);
       (0%nat, readings [3%float]); (0%nat, readings [4%float]);
       (0%nat, readings [5%float])]
    = Ok (data', [readings [(1 / 3)%float]; readings [1%float];
                  readings [2%float]; readings [3%float];
                  readings [4%float]]).
Proof. eexists. reflexivity. Qed.

(** In binary64 the sum of a window depends on the order of its cells,
    which is why the mean is stated on the cells as they lie. *)
Example binary64_sum_order :
  d_sum [1%float; 1%float; 0x1p+53%float] = 0x1.0000000000001p+53%float
  /\ d_sum [0x1p+53%float; 1%float; 1%float] = 0x1p+53%float.
Proof. split; reflexivity. Qed.

Lemma steady_state_mean_witness :
  exists data' outs vl',
    updates (gauges ["temp"; "load"]) (started (D := Qc) 2 2)
      ([(0%nat, readings [d_of_int 1; d_of_int 10]);
        (1%nat, readings [d_of_int 1; d_of_int 10]);
        (0%nat, readings [d_of_int 2; d_of_int 20])]
       ++ [(0%nat, readings [d_of_int 3; d_of_int 30])])
    = Ok (data', outs ++ [vl'])
    /\ length outs = 3%nat
    /\ gauge_at vl' 0 = Some (mean 2 (cells data' 0))
    /\ (exists p,
          cursor data' 0 = Some p
          /\ chrono (Z.to_nat p) (cells data' 0)
             = lastn 2 [d_of_int 1; d_of_int 2; d_of_int 3])
    /\ (ExactDouble Qc ->
        mean 2 (cells data' 0)
        = mean 2 (lastn 2 [d_of_int 1; d_of_int 2; d_of_int 3])).
Proof.
  apply (steady_state_mean (D := Qc) (gauges ["temp"; "load"]) (started 2 2)
           [(0%nat, readings [d_of_int 1; d_of_int 10]);
            (1%nat, readings [d_of_int 1; d_of_int 10]);
            (0%nat, readings [d_of_int 2; d_of_int 20])]
           0 (readings [d_of_int 3; d_of_int 30])).
  - reflexivity.
  - simpl. lia.
Defined.

Lemma cold_start_mean_witness :
  exists data' outs vl',
    updates (gauges ["temp"; "load"]) (started (D := float) 2 4)
      ([(0%nat, readings [10%float; 1%float])]
       ++ [(0%nat, readings [20%float; 2%float])])
    = Ok (data', outs ++ [vl'])
    /\ length outs = 1%nat
    /\ gauge_at vl' 0 = Some (mean 4 (cells data' 0))
    /\ cells data' 0 = [10%float; 20%float] ++ replicate 2 0%float
    /\ (ExactDouble float ->
        mean 4 (cells data' 0)
        = d_div (d_sum [10%float; 20%float]) (d_of_int 4)).
Proof.
  refine (cold_start_mean (D := float) (gauges ["temp"; "load"]) (started 2 4)
            [(0%nat, readings [10%float; 1%float])]
            0%nat (readings [20%float; 2%float]) _ _ _).
  - reflexivity.
  - split; reflexivity.
  - simpl. lia.
Defined.

(** C3, at a first record of two gauges for an instance with the
    default window of one cell: [allocate_buffer] makes one cursor for
    the two channels, and the update of the second channel reads a
    cursor outside the array. *)
Theorem first_record_cursors :
  allocate_buffer (host := linux) [] (gauges ["temp"; "humidity"])
    (created (D := float) 1 None)
  = Ok (0, {| window := 1; window_ptr := Some [0];
              window_buffer := Some [0%float; 0%float];
              data_sources := None |}, [])
  /\ tsma_invoke (host := linux) [] (Some (gauges ["temp"; "humidity"]))
       (Some (readings [30%float; 50%float]))
       (Some (Some (created 1 None)))
     = Fault OutOfBounds.
Proof. split; reflexivity. Qed.

(** C6, at a first record for which the array of cursors gets no
    memory and the buffer does: the call answers [- EINVAL] and leaves
    the buffer in place, so the next call takes the windows for
    allocated and reads a cursor through the null pointer. *)
Theorem cursor_allocation_failure :
  tsma_invoke (host := linux) [false; true] (Some (gauges ["temp"]))
    (Some (readings [30%float])) (Some (Some (created 1 None)))
  = Ok (- 22, Some (readings [30%float]),
        Some (Some {| window := 1; window_ptr := None;
                      window_buffer := Some [0%float];
                      data_sources := None |}), [])
  /\ forall h : heap,
       tsma_invoke (host := linux) h (Some (gauges ["temp"]))
         (Some (readings [31%float]))
         (Some (Some {| window := 1; window_ptr := None;
                        window_buffer := Some [0%float];
                        data_sources := None |}))
       = Fault NullDeref.
Proof. split; [reflexivity|intros h; reflexivity]. Qed.

Lemma selector_filtering_witness :
  (forall nm,
     is_selected (created (D := float) 1 (Some ["temp"])) nm = true
     <-> ["temp"] = [] \/ exists e, e ∈ ["temp"] /\ eq_nocase nm e)
  /\ exists vl' data',
       tsma_invoke (host := linux) [] (Some (gauges ["Temp"; "humidity"]))
         (Some (readings [30%float; 50%float]))
         (Some (Some (created 1 (Some ["temp"]))))
       = Ok (FC_TARGET_CONTINUE, Some vl', Some (Some data'), [])
       /\ forall i src, ds (gauges ["Temp"; "humidity"]) !! i = Some src ->
            (is_selected (created (D := float) 1 (Some ["temp"])) (name src)
             = true ->
             type src = DS_TYPE_GAUGE ->
             averaged {| window := 1; window_ptr := Some [0];
                         window_buffer := Some [0%float; 0%float];
                         data_sources := Some ["temp"] |}
               data' (readings [30%float; 50%float]) vl' i)
            /\ (is_selected (created (D := float) 1 (Some ["temp"])) (name src)
                = false ->
                kept {| window := 1; window_ptr := Some [0];
                        window_buffer := Some [0%float; 0%float];
                        data_sources := Some ["temp"] |}
                  data' (readings [30%float; 50%float]) vl' i).
Proof.
  apply (selector_filtering (D := float) (host := linux) [] []
           (gauges ["Temp"; "humidity"]) (readings [30%float; 50%float])
           (created 1 (Some ["temp"]))).
  - discriminate.
  - reflexivity.
  - reflexivity.
Defined.

Lemma non_gauge_pass_through_witness :
  exists vl' data',
    tsma_invoke (host := linux) []
      (Some {| ds := [ {| name := "temp"; type := DS_TYPE_GAUGE |};
                       {| name := "packets"; type := DS_TYPE_COUNTER |};
                       {| name := "load"; type := DS_TYPE_GAUGE |} ] |})
      (Some {| values := [gauge 30%float; counter 7; gauge 0.5%float] |})
      (Some (Some (created 3 None)))
    = Ok (FC_TARGET_CONTINUE, Some vl', Some (Some data'), [])
    /\ forall i src,
         [ {| name := "temp"; type := DS_TYPE_GAUGE |};
           {| name := "packets"; type := DS_TYPE_COUNTER |};
           {| name := "load"; type := DS_TYPE_GAUGE |} ] !! i = Some src ->
         is_selected (created (D := float) 3 None) (name src) = true ->
         (type src <> DS_TYPE_GAUGE ->
          kept {| window := 3; window_ptr := Some [0; 0; 0];
                  window_buffer := Some (replicate 9 0%float);
                  data_sources := None |}
            data' {| values := [gauge 30%float; counter 7; gauge 0.5%float] |}
            vl' i)
         /\ (type src = DS_TYPE_GAUGE ->
             averaged {| window := 3; window_ptr := Some [0; 0; 0];
                         window_buffer := Some (replicate 9 0%float);
                         data_sources := None |}
               data' {| values := [gauge 30%float; counter 7; gauge 0.5%float] |}
               vl' i).
Proof.
  apply (non_gauge_pass_through (D := float) (host := linux) [] []
           {| ds := [ {| name := "temp"; type := DS_TYPE_GAUGE |};
                      {| name := "packets"; type := DS_TYPE_COUNTER |};
                      {| name := "load"; type := DS_TYPE_GAUGE |} ] |}
           {| values := [gauge 30%float; counter 7; gauge 0.5%float] |}
           (created 3 None)).
  - reflexivity.
  - reflexivity.
Defined.

(** C5, as the claim has it, fails at [Window 0]: the construction
    succeeds and the window size is [0]. *)
Lemma window_zero_accepted :
  tsma_create (host := linux) [] (target_block [option_number "Window" 0%float])
    None
  = Ok (0, Some (created 0 None), [])
  /\ window (created (D := float) 0 None) < 1.
Proof. split; reflexivity. Qed.

Lemma window_configured_witness :
  window (created (D := float) (- 3) None)
  = window_of (target_block [option_number "window" (-3.5)%float])
  /\ (forallb (fun child => negb (strcasecmp "Window" (key child) =? 0))
        (children (target_block [option_number "window" (-3.5)%float]))
      = true ->
      window (created (D := float) (- 3) None) = 1).
Proof.
  apply (window_configured (D := float) (host := linux) [] []
           (target_block [option_number "window" (-3.5)%float]) None).
  reflexivity.
Defined.

Lemma window_truncated_witness :
  exists data,
    tsma_create (host := linux) []
      (target_block [option_number "WINDOW" 7%float;
                     option_number "Window" 2.5%float;
                     oconfig_item "DataSource" [OCONFIG_TYPE_STRING "temp"] []])
      None
    = Ok (0, Some data, [])
    /\ window data = 2.
Proof.
  apply (window_truncated (D := float) (host := linux) _ None
           [option_number "WINDOW" 7%float]
           [oconfig_item "DataSource" [OCONFIG_TYPE_STRING "temp"] []]
           [] "Window" 2.5%float 2); reflexivity.
Defined.

(** C10, as the claim has it, fails at [Window 1e10]: no [int] holds
    the integral part of the number, and the conversion is undefined. *)
Lemma window_out_of_range :
  tsma_create (host := linux) []
    (target_block [option_number "Window" 1e10%float]) None
  = Fault FloatToInt.
Proof. reflexivity. Qed.

(** ** Construction: every outcome, every block *)

Section Blocks.

Context {D : Type} `{Double D} {host : Host}.

#[local] Arguments strcasecmp : simpl never.

Lemma copy_strings_stored (vs : list (oconfig_value_t D)) :
  forall (h : heap) (old : list string),
    (copy_strings h old vs).1 = old ++ served h (strings_of vs).
Proof.
  induction vs as [|[s|number|b] vs IH]; intros h old; simpl.
  - rewrite app_nil_r. reflexivity.
  - unfold sstrdup. destruct (alloc h) as [[] h1]; simpl.
    + rewrite IH, <- app_assoc. reflexivity.
    + apply IH.
  - apply IH.
  - apply IH.
Qed.

Lemma served_sublist (ss : list string) :
  forall h : heap, sublist (served h ss) ss.
Proof.
  induction ss as [|s ss IH]; intros h; simpl.
  - constructor.
  - destruct (alloc h).1; [apply sublist_skip|apply sublist_cons]; apply IH.
Qed.

Lemma served_all (ss : list string) :
  forall (h : heap) (n : nat),
    (length ss <= n)%nat ->
    forallb id (take n h) = true ->
    served h ss = ss.
Proof.
  induction ss as [|s ss IH]; intros h n Hn Hall; simpl in *.
  - reflexivity.
  - destruct n as [|n]; [lia|].
    destruct h as [|b h]; simpl in *.
    + f_equal. apply (IH [] n); [lia|]. rewrite take_nil. reflexivity.
    + apply andb_prop in Hall as [Hb Hall]. unfold id in Hb. subst b.
      f_equal. apply (IH h n); [lia|exact Hall].
Qed.

Lemma strings_of_length (vs : list (oconfig_value_t D)) :
  (length (strings_of vs) <= length vs)%nat.
Proof.
  induction vs as [|[s|number|b] vs IH]; simpl; lia.
Qed.

(** A [DataSource] option succeeds exactly when it has an argument,
    all its arguments are strings and the array gets its memory; else
    it answers [-1] and leaves the instance as it is.  When it succeeds
    it keeps the entries that were there and appends the strings whose
    copy gets memory, in their order: all of them when the allocator
    serves every copy.  Window size and windows are not touched either
    way. *)
Theorem data_source_entries (h : heap) (data : tsma_data_t D)
    (ci : oconfig_item_t D) :
  let '(status, data', _) := tsma_config_add_data_source h data ci in
  window data' = window data
  /\ window_ptr data' = window_ptr data
  /\ window_buffer data' = window_buffer data
  /\ (status = 0
      <-> (1 <=? Z.of_nat (length (ci_values ci)))
          && forallb is_string (ci_values ci) && (alloc h).1 = true)
  /\ ((status = -1 /\ data' = data)
      \/ (status = 0
          /\ data_sources data'
             = Some (default [] (data_sources data)
                     ++ served (alloc h).2 (strings_of (ci_values ci)))
          /\ sublist (served (alloc h).2 (strings_of (ci_values ci)))
               (strings_of (ci_values ci))
          /\ (forallb id (take (length (ci_values ci)) (alloc h).2) = true ->
              data_sources data'
              = Some (default [] (data_sources data)
                      ++ strings_of (ci_values ci))))).
Proof.
  unfold tsma_config_add_data_source.
  destruct (Z.ltb_spec (Z.of_nat (length (ci_values ci))) 1) as [Hlen|Hlen].
  { destruct (Z.leb_spec 1 (Z.of_nat (length (ci_values ci)))); [lia|].
    simpl. repeat split; try discriminate; auto. }
  destruct (Z.leb_spec 1 (Z.of_nat (length (ci_values ci)))); [|lia].
  destruct (forallb is_string (ci_values ci)); simpl;
    [|repeat split; try discriminate; auto].
  destruct (alloc h) as [[] h1]; simpl;
    [|repeat split; try discriminate; auto].
  pose proof (copy_strings_stored (ci_values ci) h1
                (default [] (data_sources data))) as Heq.
  destruct (copy_strings h1 _ _) as [sources h2]. simpl in *. subst sources.
  repeat split. right. split; [reflexivity|]. split; [reflexivity|].
  split; [apply served_sublist|].
  intros Hall. do 2 f_equal.
  apply (served_all _ _ (length (ci_values ci)));
    [apply strings_of_length|exact Hall].
Qed.

Lemma tsma_config_add_data_source_status (h : heap) (data : tsma_data_t D)
    (ci : oconfig_item_t D) :
  (tsma_config_add_data_source h data ci).1.1 = 0
  \/ (tsma_config_add_data_source h data ci).1.1 = -1.
Proof.
  unfold tsma_config_add_data_source.
  destruct (Z.of_nat (length (ci_values ci)) <? 1); [auto|].
  destruct (negb (forallb is_string (ci_values ci))); [auto|].
  destruct (alloc h) as [[] h1]; simpl; [|auto].
  destruct (copy_strings h1 _ _). auto.
Qed.

Lemma create_loop_outcome (cs : list (oconfig_item_t D)) :
  forall (h : heap) (data : tsma_data_t D),
    match create_loop h data cs with
    | Ok (status, data', _) =>
        (status = 0 \/ status = -1)
        /\ window_ptr data' = window_ptr data
        /\ window_buffer data' = window_buffer data
    | Fault f => f = FloatToInt
    end.
Proof.
  induction cs as [|child cs IH]; intros h data; simpl.
  - auto.
  - destruct (strcasecmp "Window" (key child) =? 0).
    + unfold tsma_config_set_int.
      destruct (ci_values child) as [|[s|number|b] [|v vs]];
        bind_simpl; simpl; auto.
      destruct (d_trunc number) as [z|]; [|reflexivity].
      destruct (in_int z); [|reflexivity]. simpl.
      apply (IH h (set_window data z)).
    + destruct (strcasecmp "DataSource" (key child) =? 0).
      * bind_simpl.
        pose proof (tsma_config_add_data_source_status h data child) as Hst.
        destruct (tsma_config_add_data_source h data child)
          as [[status data1] h1] eqn:Hadd.
        apply tsma_config_add_data_source_window in Hadd as (_ & Hp & Hb).
        simpl in Hst. destruct Hst as [-> | ->]; simpl.
        -- specialize (IH h1 data1).
           destruct (create_loop h1 data1 cs) as [[[st d] h2]|]; [|exact IH].
           destruct IH as (Hst & Hp' & Hb'). repeat split; congruence.
        -- auto.
      * bind_simpl. simpl. apply IH.
Qed.

(** Whatever the block and the allocator, construction ends in one of
    three ways: with status [0] and a new instance behind [user_data]
    that has no windows yet; with status [-1] (a refused option or no
    memory for the data sources) or [- ENOMEM] (no memory for the
    instance) and [user_data] as it was; or in the undefined conversion
    of a [Window] number that no [int] holds. *)
Theorem construction_outcome (h : heap) (ci : oconfig_item_t D)
    (ud : option (tsma_data_t D)) :
  match tsma_create h ci ud with
  | Ok (status, ud', _) =>
      (status = 0
       /\ exists data,
            ud' = Some data
            /\ window_ptr data = None /\ window_buffer data = None)
      \/ ((status = -1 \/ status = - ENOMEM) /\ ud' = ud)
  | Fault f => f = FloatToInt
  end.
Proof.
  unfold tsma_create. destruct (alloc h) as [[] h1]; simpl; [|auto].
  match goal with |- context [create_loop h1 ?d _] =>
    pose proof (create_loop_outcome (children ci) h1 d) as Hloop;
    destruct (create_loop h1 d (children ci)) as [[[status data] h2]|] end;
    bind_simpl; [|exact Hloop].
  destruct Hloop as ([-> | ->] & Hp & Hb); simpl.
  - left. split; [reflexivity|]. exists data. auto.
  - right. auto.
Qed.

(** Options with a key that is neither [Window] nor [DataSource] have
    no effect: construction from a block and from the block without
    them come to the same, for every allocator. *)
Theorem unknown_options_ignored (h : heap) (k : string)
    (vs : list (oconfig_value_t D)) (cs : list (oconfig_item_t D))
    (ud : option (tsma_data_t D)) :
  tsma_create h (oconfig_item k vs cs) ud
  = tsma_create h (oconfig_item k vs (List.filter recognised cs)) ud.
Proof.
  unfold tsma_create. destruct (alloc h) as [ok h1]. simpl.
  destruct ok; simpl; [|reflexivity].
  match goal with |- context [create_loop h1 ?d cs] => generalize d end.
  generalize h1. clear h h1.
  assert (Hloop : forall (h : heap) (data : tsma_data_t D),
            create_loop h data cs
            = create_loop h data (List.filter recognised cs)).
  { induction cs as [|child cs IH]; intros h data; simpl; [reflexivity|].
    unfold recognised.
    destruct (strcasecmp "Window" (key child) =? 0) eqn:Hw; simpl.
    - rewrite Hw.
      destruct (tsma_config_set_int (window data) child) as [[st w]|];
        bind_simpl; [|reflexivity].
      destruct (negb (st =? 0)); [reflexivity|apply IH].
    - destruct (strcasecmp "DataSource" (key child) =? 0) eqn:Hd; simpl.
      + rewrite Hw, Hd. bind_simpl.
        destruct (tsma_config_add_data_source h data child) as [[st d] h'].
        destruct (negb (st =? 0)); [reflexivity|apply IH].
      + bind_simpl. simpl. apply IH. }
  intros h data. rewrite Hloop. reflexivity.
Qed.

Lemma eq_nocase_key (lit k k' : string) :
  eq_nocase k k' ->
  (strcasecmp lit k =? 0) = (strcasecmp lit k' =? 0).
Proof.
  intros Hk.
  destruct (Z.eqb_spec (strcasecmp lit k) 0) as [Hz|Hz];
    destruct (Z.eqb_spec (strcasecmp lit k') 0) as [Hz'|Hz']; auto; exfalso.
  - apply Hz', strcasecmp_eq_nocase. apply strcasecmp_eq_nocase in Hz.
    unfold eq_nocase in *. congruence.
  - apply Hz, strcasecmp_eq_nocase. apply strcasecmp_eq_nocase in Hz'.
    unfold eq_nocase in *. congruence.
Qed.

(** Construction reads of a block the keys of its options, up to case,
    and their arguments, and nothing else: not the key or the arguments
    of the block itself, not the children of an option. *)
Theorem options_up_to_case (h : heap) (k k' : string)
    (vs vs' : list (oconfig_value_t D)) (cs cs' : list (oconfig_item_t D))
    (ud : option (tsma_data_t D)) :
  Forall2 same_option cs cs' ->
  tsma_create h (oconfig_item k vs cs) ud
  = tsma_create h (oconfig_item k' vs' cs') ud.
Proof.
  intros Hsame. unfold tsma_create. destruct (alloc h) as [ok h1]. simpl.
  destruct ok; simpl; [|reflexivity].
  match goal with |- context [create_loop h1 ?d cs] => generalize d end.
  generalize h1. clear h h1.
  induction Hsame as [|c c' cs cs' [Hkey Hval] Hrest IH]; intros h data.
  - reflexivity.
  - simpl in *.
    rewrite (eq_nocase_key "Window" _ _ Hkey).
    rewrite (eq_nocase_key "DataSource" _ _ Hkey).
    assert (Hset : tsma_config_set_int (window data) c
                   = tsma_config_set_int (window data) c').
    { unfold tsma_config_set_int. rewrite Hval. reflexivity. }
    assert (Hadd : tsma_config_add_data_source h data c
                   = tsma_config_add_data_source h data c').
    { unfold tsma_config_add_data_source. rewrite Hval. reflexivity. }
    rewrite Hset, Hadd.
    destruct (strcasecmp "Window" (key c') =? 0).
    + destruct (tsma_config_set_int (window data) c') as [[st w]|];
        bind_simpl; [|reflexivity].
      destruct (negb (st =? 0)); [reflexivity|].
      specialize (IH h (set_window data w)).
      destruct (create_loop h (set_window data w) cs) as [[[s1 d1] h1]|];
        destruct (create_loop h (set_window data w) cs') as [[[s2 d2] h2]|];
        exact IH.
    + destruct (strcasecmp "DataSource" (key c') =? 0).
      * bind_simpl.
        destruct (tsma_config_add_data_source h data c') as [[st d] h'].
        destruct (negb (st =? 0)); [reflexivity|]. apply IH.
      * bind_simpl. simpl. apply IH.
Qed.

End Blocks.

Section Refusals.

Context {D : Type} `{Double D} {host : Host}.

#[local] Arguments strcasecmp : simpl never.

Lemma create_loop_malformed (cs : list (oconfig_item_t D)) :
  existsb malformed cs = true ->
  forall (h : heap) (data : tsma_data_t D),
    match create_loop h data cs with
    | Ok (status, _, _) => status = -1
    | Fault f => f = FloatToInt
    end.
Proof.
  induction cs as [|child cs IH]; intros Hbad h data; simpl in *.
  - discriminate.
  - unfold malformed in Hbad at 1.
    destruct (strcasecmp "Window" (key child) =? 0).
    + unfold tsma_config_set_int.
      destruct (ci_values child) as [|[s|number|b] [|v vs]];
        bind_simpl; simpl; auto.
      destruct (d_trunc number) as [z|]; [|reflexivity].
      destruct (in_int z); [|reflexivity]. simpl.
      apply IH. exact Hbad.
    + destruct (strcasecmp "DataSource" (key child) =? 0).
      * bind_simpl. unfold tsma_config_add_data_source.
        destruct (Z.of_nat (length (ci_values child)) <? 1);
          [reflexivity|].
        destruct (negb (forallb is_string (ci_values child)));
          [reflexivity|].
        simpl in Hbad.
        destruct (alloc h) as [[] h1]; simpl; [|reflexivity].
        destruct (copy_strings h1 _ _) as [sources h2]. simpl.
        apply IH. exact Hbad.
      * bind_simpl. simpl. apply IH. exact Hbad.
Qed.

(** A block with a malformed option never yields an instance, wherever
    the option stands and whatever the allocator does: the status is
    [-1] or [- ENOMEM] and [user_data] is as it was (or a [Window]
    number before it was beyond [int]). *)
Theorem malformed_block_refused (h : heap) (ci : oconfig_item_t D)
    (ud : option (tsma_data_t D)) :
  existsb malformed (children ci) = true ->
  match tsma_create h ci ud with
  | Ok (status, ud', _) => (status = -1 \/ status = - ENOMEM) /\ ud' = ud
  | Fault f => f = FloatToInt
  end.
Proof.
  intros Hbad. unfold tsma_create.
  destruct (alloc h) as [[] h1]; simpl; [|auto].
  match goal with |- context [create_loop h1 ?d _] =>
    pose proof (create_loop_malformed (children ci) Hbad h1 d) as Hloop;
    destruct (create_loop h1 d (children ci)) as [[[status data] h2]|] end;
    bind_simpl; [|exact Hloop].
  subst status. simpl. auto.
Qed.

(** With memory at hand the [DataSource] options of a well-formed
    block add up: the instance lists all their strings, in the order of
    the block, and has no array of data sources exactly when the block
    names none. *)
Theorem data_sources_cumulative (ci : oconfig_item_t D)
    (ud : option (tsma_data_t D)) :
  forallb option_ok (children ci) = true ->
  exists data,
    tsma_create [] ci ud = Ok (0, Some data, [])
    /\ default [] (data_sources data) = sources_of ci
    /\ (data_sources data = None <-> sources_of ci = []).
Proof.
  intros Hok.
  destruct (tsma_create_served ci ud Hok)
    as (data & Hrun & _ & Hne & Hsrc & _).
  exists data. split; [exact Hrun|]. split; [exact Hsrc|].
  rewrite <- Hsrc. destruct (data_sources data) as [[|e l]|]; simpl.
  - congruence.
  - split; discriminate.
  - split; reflexivity.
Qed.

(** Construction and teardown fit: the instance made from a
    well-formed block is released by [tsma_destroy] as one block for
    each data source, the array if there is any data source, and the
    instance itself; [user_data] is null afterwards. *)
Theorem create_then_destroy (ci : oconfig_item_t D)
    (ud : option (tsma_data_t D)) :
  forallb option_ok (children ci) = true ->
  exists data,
    tsma_create [] ci ud = Ok (0, Some data, [])
    /\ tsma_destroy (Some (Some data))
       = (0, Some None,
          map blk_data_source (sources_of ci)
          ++ (if bool_decide (sources_of ci = []) then []
              else [blk_data_sources])
          ++ [blk_data]).
Proof.
  intros Hok.
  destruct (tsma_create_served ci ud Hok)
    as (data & Hrun & _ & Hne & Hsrc & Hp & Hb).
  exists data. split; [exact Hrun|].
  unfold tsma_destroy. rewrite Hp, Hb, <- Hsrc.
  destruct (data_sources data) as [[|e l]|]; simpl.
  - congruence.
  - rewrite <- app_assoc. reflexivity.
  - reflexivity.
Qed.

End Refusals.

(** ** Updates at the edges of the window size *)

Section Edges.

Context {D : Type} `{Double D}.

(** With a window of one cell, the default, an update writes the
    incoming value [g] into the cell and hands back [(0.0 + g) / 1.0],
    whatever the cell held before; where that is [g], the value list
    comes back as it went in. *)
Theorem window_one_pass_through (s : data_set_t) (vl : value_list_t D)
    (data : tsma_data_t D) (c : nat) (g : D) :
  window data = 1 ->
  channel_ok data c = true ->
  gauge_at vl c = Some g ->
  exists data',
    tsma_invoke_gauge s vl data (Z.of_nat c)
    = Ok (0, {| values := <[c := gauge (d_div (d_add d_zero g) (d_of_int 1))]>
                            (values vl) |}, data')
    /\ cells data' c = [g]
    /\ (d_div (d_add d_zero g) (d_of_int 1) = g ->
        tsma_invoke_gauge s vl data (Z.of_nat c) = Ok (0, vl, data')).
Proof.
  intros HN Hok Hg.
  destruct (channel_ok_cursor _ _ Hok) as (p & Hp & Hr).
  destruct (tsma_invoke_gauge_spec s vl data c p g Hok Hp Hg)
    as (data' & Hrun & _ & _ & _ & Hcells & _).
  pose proof (channel_ok_cells _ _ Hok) as Hlen.
  rewrite HN in *. assert (p = 0) as -> by lia.
  destruct (cells data c) as [|x [|y w]]; try discriminate.
  simpl in Hcells.
  assert (Hmean : mean 1 (cells data' c) = d_div (d_add d_zero g) (d_of_int 1))
    by (rewrite Hcells; reflexivity).
  rewrite Hmean in Hrun.
  exists data'. split; [exact Hrun|]. split; [exact Hcells|].
  intros Hid. rewrite Hrun, Hid. do 2 f_equal.
  destruct vl as [vs]. simpl. rewrite list_insert_id; [reflexivity|].
  unfold gauge_at in Hg. simpl in Hg.
  destruct (vs !! c) as [[]|]; congruence.
Qed.


(** An update is local to its channel: value, cursor and cells of
    every other channel are as before. *)
Theorem update_is_local (s : data_set_t) (vl : value_list_t D)
    (data : tsma_data_t D) (c : nat) :
  channel_ok data c = true ->
  is_Some (gauge_at vl c) ->
  exists vl' data',
    tsma_invoke_gauge s vl data (Z.of_nat c) = Ok (0, vl', data')
    /\ averaged data data' vl vl' c
    /\ forall i, i <> c -> kept data data' vl vl' i.
Proof.
  intros Hok Hg.
  destruct (tsma_invoke_gauge_averaged s vl data c Hok Hg)
    as (vl' & data' & Hrun & _ & _ & _ & _ & Hc & Hframe).
  eauto.
Qed.

End Edges.

(** ** What a call keeps *)

Section Invariants.

Context {D : Type} `{Double D} {host : Host}.

Lemma store_inv {A} (a a' : list A) (i : Z) (x : A) :
  store a i x = Ok a' -> a' = <[Z.to_nat i := x]> a.
Proof.
  unfold store. destruct ((0 <=? i) && (i <? Z.of_nat (length a)));
    congruence.
Qed.

Lemma load_inv {A} (a : list A) (i : Z) (x : A) :
  load a i = Ok x -> 0 <= i /\ a !! Z.to_nat i = Some x.
Proof.
  unfold load. destruct (Z.ltb_spec i 0); [discriminate|].
  destruct (a !! Z.to_nat i); [|discriminate]. intros [= ->]. auto.
Qed.

Lemma int_rem_range (a b r : Z) :
  0 <= a - 1 < b -> int_rem a b = Ok r -> 0 <= r < b.
Proof.
  intros Ha. rewrite int_rem_mod by lia. intros [= <-].
  apply Z.mod_pos_bound. lia.
Qed.

Lemma cursors_in_range_inv (data : tsma_data_t D) (ptr : list Z) :
  window_ptr data = Some ptr ->
  cursors_in_range data = true
  <-> Forall (fun p => 0 <= p < window data) ptr.
Proof.
  intros Hptr. unfold cursors_in_range. rewrite Hptr, forallb_forall.
  rewrite Forall_forall. split; intros Hall p Hin.
  - apply list_elem_of_In, Hall in Hin. lia.
  - apply list_elem_of_In, Hall in Hin. lia.
Qed.

(** An update that goes through, read backwards. *)
Lemma tsma_invoke_gauge_inv (s : data_set_t) (vl vl' : value_list_t D)
    (data data' : tsma_data_t D) (i status : Z) :
  tsma_invoke_gauge s vl data i = Ok (status, vl', data') ->
  status = 0
  /\ window data' = window data
  /\ data_sources data' = data_sources data
  /\ length (values vl') = length (values vl)
  /\ exists ptr buf p p' pos v,
       window_ptr data = Some ptr /\ window_buffer data = Some buf
       /\ ptr !! Z.to_nat i = Some p
       /\ int_rem (p + 1) (window data) = Ok p'
       /\ window_ptr data' = Some (<[Z.to_nat i := p']> ptr)
       /\ window_buffer data' = Some (<[Z.to_nat pos := v]> buf).
Proof.
  unfold tsma_invoke_gauge. intros Hrun.
  destruct (int_mul i (window data)) as [off|]; bind_simpl in Hrun;
    [|discriminate].
  destruct (window_ptr data) as [ptr|]; simpl in Hrun; [|discriminate].
  destruct (window_buffer data) as [buf|]; simpl in Hrun; [|discriminate].
  destruct (load ptr i) as [p|] eqn:Hp; bind_simpl in Hrun; [|discriminate].
  destruct (int_add off p) as [pos|]; bind_simpl in Hrun; [|discriminate].
  destruct (load_gauge vl i) as [v|]; bind_simpl in Hrun; [|discriminate].
  destruct (store buf pos v) as [buf'|] eqn:Hbuf; bind_simpl in Hrun;
    [|discriminate].
  destruct (int_add p 1) as [p1|] eqn:Hp1; bind_simpl in Hrun; [|discriminate].
  destruct (int_rem p1 (window data)) as [p'|] eqn:Hrem; bind_simpl in Hrun;
    [|discriminate].
  destruct (store ptr i p') as [ptr'|] eqn:Hptr; bind_simpl in Hrun;
    [|discriminate].
  destruct (int_add off (window data)) as [hi|]; bind_simpl in Hrun;
    [|discriminate].
  destruct (sum_loop buf' off _ d_zero) as [window_sum|]; bind_simpl in Hrun;
    [|discriminate].
  unfold store_gauge in Hrun.
  destruct (store (values vl) i _) as [vs|] eqn:Hvs; bind_simpl in Hrun;
    [|discriminate].
  injection Hrun as <- <- <-.
  apply store_inv in Hbuf, Hptr, Hvs. subst.
  apply load_inv in Hp as [_ Hp].
  unfold int_add, int_of in Hp1. destruct (in_int (p + 1)); [|discriminate].
  injection Hp1 as <-.
  split; [reflexivity|]. split; [reflexivity|]. split; [reflexivity|].
  split; [simpl; apply length_insert|].
  exists ptr, buf, p, p', pos, v. auto 8.
Qed.

Lemma tsma_invoke_gauge_keeps (s : data_set_t) (vl vl' : value_list_t D)
    (data data' : tsma_data_t D) (i status : Z) :
  tsma_invoke_gauge s vl data i = Ok (status, vl', data') ->
  window data' = window data
  /\ data_sources data' = data_sources data
  /\ length (values vl') = length (values vl)
  /\ length <$> window_ptr data' = length <$> window_ptr data
  /\ length <$> window_buffer data' = length <$> window_buffer data
  /\ (cursors_in_range data = true -> cursors_in_range data' = true).
Proof.
  intros Hrun. apply tsma_invoke_gauge_inv in Hrun
    as (_ & Hw & Hs & Hl & ptr & buf & p & p' & pos & v
        & Hptr & Hbuf & Hp & Hrem & Hptr' & Hbuf').
  split; [exact Hw|]. split; [exact Hs|]. split; [exact Hl|].
  rewrite Hptr, Hbuf, Hptr', Hbuf'. simpl. rewrite !length_insert.
  split; [reflexivity|]. split; [reflexivity|].
  rewrite (cursors_in_range_inv _ _ Hptr), (cursors_in_range_inv _ _ Hptr').
  rewrite Hw. intros Hall. apply Forall_insert; [exact Hall|].
  rewrite Forall_forall in Hall.
  assert (Hr : 0 <= p < window data)
    by (apply Hall, list_elem_of_lookup; eauto).
  apply (int_rem_range (p + 1)); [lia|exact Hrem].
Qed.

Lemma invoke_loop_keeps (s : data_set_t) (srcs : list data_source_t) :
  forall (i : Z) (vl vl' : value_list_t D) (data data' : tsma_data_t D),
    invoke_loop s i srcs vl data = Ok (vl', data') ->
    window data' = window data
    /\ data_sources data' = data_sources data
    /\ length (values vl') = length (values vl)
    /\ length <$> window_ptr data' = length <$> window_ptr data
    /\ length <$> window_buffer data' = length <$> window_buffer data
    /\ (cursors_in_range data = true -> cursors_in_range data' = true).
Proof.
  induction srcs as [|src srcs IH]; intros i vl vl' data data' Hrun;
    simpl in Hrun.
  - injection Hrun as <- <-. auto 6.
  - assert (Hbody : exists vl1 data1,
      (if negb (is_selected data (name src)) then Ok (vl, data)
       else if is_gauge (type src) then
         '(_, vl, data) ← tsma_invoke_gauge s vl data (int_of_size_t i);
         Ok (vl, data)
       else Ok (vl, data)) = Ok (vl1, data1)
      /\ invoke_loop s (i + 1) srcs vl1 data1 = Ok (vl', data')).
    { match type of Hrun with (?body ≫= _) = _ =>
        destruct body as [[vl1 data1]|] eqn:Hbody end;
        bind_simpl in Hrun; [|discriminate]. eauto. }
    destruct Hbody as (vl1 & data1 & Hbody & Hrest).
    apply IH in Hrest as (Hw & Hs & Hl & Hp & Hb & Hc).
    assert (Hstep : window data1 = window data
      /\ data_sources data1 = data_sources data
      /\ length (values vl1) = length (values vl)
      /\ length <$> window_ptr data1 = length <$> window_ptr data
      /\ length <$> window_buffer data1 = length <$> window_buffer data
      /\ (cursors_in_range data = true -> cursors_in_range data1 = true)).
    { destruct (negb (is_selected data (name src)));
        [injection Hbody as <- <-; auto 6|].
      destruct (is_gauge (type src)); [|injection Hbody as <- <-; auto 6].
      destruct (tsma_invoke_gauge s vl data (int_of_size_t i))
        as [[[st vl2] data2]|] eqn:Hg; bind_simpl in Hbody; [|discriminate].
      injection Hbody as <- <-. eapply tsma_invoke_gauge_keeps; eauto. }
    destruct Hstep as (Hw1 & Hs1 & Hl1 & Hp1 & Hb1 & Hc1).
    repeat split; try congruence. auto.
Qed.

(** What [allocate_buffer] can answer. *)
Lemma allocate_buffer_inv (h h0 : heap) (s : data_set_t)
    (data data0 : tsma_data_t D) (status : Z) :
  allocate_buffer h s data = Ok (status, data0, h0) ->
  (window_buffer data <> None /\ status = 0 /\ data0 = data /\ h0 = h)
  \/ (window_buffer data = None
      /\ (status = 0 \/ status = - EINVAL)
      /\ (status = 0 -> window_buffer data0 <> None)
      /\ match window_ptr data0 with
         | Some ptr => Forall (fun p => p = 0) ptr
         | None => True
         end).
Proof.
  unfold allocate_buffer. intros Hrun.
  destruct (window_buffer data) as [buf|];
    [injection Hrun as <- <- <-; left; auto|].
  right. split; [reflexivity|].
  destruct (calloc h _ _) as [p h1]. destruct (calloc h1 _ _) as [b h2].
  assert (Hzeros : match (fun bytes => zeroed 0 bytes sizeof_int) <$> p with
                   | Some ptr => Forall (fun p => p = 0) ptr
                   | None => True
                   end).
  { destruct p as [bytes|]; simpl; [|exact I].
    unfold zeroed. apply Forall_replicate. reflexivity. }
  destruct b as [bytes|]; simpl in Hrun.
  - destruct p as [bytes'|]; simpl in Hrun.
    + destruct (zero_loop _ _ _) as [cells|]; bind_simpl in Hrun;
        [|discriminate].
      injection Hrun as <- <- <-. simpl. auto.
    + injection Hrun as <- <- <-. pose proof EINVAL_pos. simpl.
      split; [auto|]. split; [lia|exact I].
  - injection Hrun as <- <- <-. pose proof EINVAL_pos. simpl.
    split; [auto|]. split; [lia|exact Hzeros].
Qed.

(** The configuration of an instance is fixed: a call with all its
    arguments answers [FC_TARGET_CONTINUE] or [- EINVAL], hands back a
    value list of the same length, and leaves window size and data
    sources as they are; it never stores null behind [user_data]. *)
Theorem configuration_immutable (h : heap) (s : data_set_t)
    (vl : value_list_t D) (data : tsma_data_t D) :
  match tsma_invoke h (Some s) (Some vl) (Some (Some data)) with
  | Ok (status, vl', ud', _) =>
      exists v data',
        vl' = Some v /\ ud' = Some (Some data')
        /\ (status = FC_TARGET_CONTINUE \/ status = - EINVAL)
        /\ window data' = window data
        /\ data_sources data' = data_sources data
        /\ length (values v) = length (values vl)
  | Fault _ => True
  end.
Proof.
  unfold tsma_invoke.
  destruct (allocate_buffer h s data) as [[[status data0] h0]|] eqn:Halloc;
    bind_simpl; [|exact I].
  destruct (allocate_buffer_sources _ _ _ _ _ _ Halloc) as [Hw0 Hs0].
  apply allocate_buffer_inv in Halloc.
  assert (Hst : status = 0 \/ status = - EINVAL) by intuition.
  pose proof EINVAL_pos.
  destruct Hst as [-> | ->]; simpl.
  - destruct (invoke_loop s 0 (ds s) vl data0) as [[vl' data']|] eqn:Hloop;
      bind_simpl; [|exact I].
    apply invoke_loop_keeps in Hloop as (Hw & Hs & Hl & _).
    exists vl', data'. repeat split; auto; congruence.
  - destruct (Z.eqb_spec (- EINVAL) 0) as [Hz|_]; [lia|]. simpl.
    exists vl, data0. repeat split; auto.
Qed.

(** The windows are allocated once: when the buffer is there, a call
    asks the allocator for nothing, cannot fail with [- EINVAL] for
    lack of memory, and leaves arrays of the same lengths. *)
Theorem windows_allocated_once (h : heap) (s : data_set_t)
    (vl : value_list_t D) (data : tsma_data_t D) :
  window_buffer data <> None ->
  match tsma_invoke h (Some s) (Some vl) (Some (Some data)) with
  | Ok (status, _, ud', h') =>
      status = FC_TARGET_CONTINUE /\ h' = h
      /\ exists data',
           ud' = Some (Some data')
           /\ length <$> window_buffer data' = length <$> window_buffer data
           /\ length <$> window_ptr data' = length <$> window_ptr data
  | Fault _ => True
  end.
Proof.
  intros Hbuf. unfold tsma_invoke, allocate_buffer.
  destruct (window_buffer data) as [buf|] eqn:Hb; [|congruence].
  bind_simpl. simpl.
  destruct (invoke_loop s 0 (ds s) vl data) as [[vl' data']|] eqn:Hloop;
    bind_simpl; [|exact I].
  apply invoke_loop_keeps in Hloop as (_ & _ & _ & Hp & Hb' & _).
  split; [reflexivity|]. split; [reflexivity|].
  exists data'. rewrite Hb', Hb. auto.
Qed.

(** Cursors stay inside their window: if the window size is at least
    one and every cursor of the instance points into a window, so it is
    after a call, the first one included. *)
Theorem cursors_stay_in_range (h : heap) (s : data_set_t)
    (vl : value_list_t D) (data : tsma_data_t D) :
  1 <= window data ->
  cursors_in_range data = true ->
  match tsma_invoke h (Some s) (Some vl) (Some (Some data)) with
  | Ok (_, _, ud', _) =>
      exists data', ud' = Some (Some data') /\ cursors_in_range data' = true
  | Fault _ => True
  end.
Proof.
  intros HN Hin. unfold tsma_invoke.
  destruct (allocate_buffer h s data) as [[[status data0] h0]|] eqn:Halloc;
    bind_simpl; [|exact I].
  destruct (allocate_buffer_sources _ _ _ _ _ _ Halloc) as [Hw0 _].
  assert (Hin0 : cursors_in_range data0 = true).
  { apply allocate_buffer_inv in Halloc
      as [(_ & _ & -> & _)|(_ & _ & _ & Hzeros)]; [exact Hin|].
    destruct (window_ptr data0) as [ptr|] eqn:Hptr;
      [|unfold cursors_in_range; rewrite Hptr; reflexivity].
    apply (cursors_in_range_inv _ _ Hptr).
    eapply Forall_impl; [exact Hzeros|]. intros p ->. lia. }
  destruct (negb (status =? 0)); [eauto|].
  destruct (invoke_loop s 0 (ds s) vl data0) as [[vl' data']|] eqn:Hloop;
    bind_simpl; [|exact I].
  apply invoke_loop_keeps in Hloop as (_ & _ & _ & _ & _ & Hc).
  eauto.
Qed.

(** Without memory for the cursors or for the buffer the first call
    answers [- EINVAL] and hands the value list back untouched; window
    size and data sources stay, and both requests have been made. *)
Theorem allocation_failure_status (h h1 h2 : heap) (b1 b2 : bool)
    (s : data_set_t) (vl : value_list_t D) (data : tsma_data_t D) :
  window_buffer data = None ->
  alloc h = (b1, h1) -> alloc h1 = (b2, h2) ->
  b1 && b2 = false ->
  exists data',
    tsma_invoke h (Some s) (Some vl) (Some (Some data))
    = Ok (- EINVAL, Some vl, Some (Some data'), h2)
    /\ window data' = window data
    /\ data_sources data' = data_sources data
    /\ (b2 = false -> window_buffer data' = None).
Proof.
  intros Hnull Hh Hh1 Hfail. unfold tsma_invoke, allocate_buffer, calloc.
  rewrite Hnull, Hh, Hh1. pose proof EINVAL_pos.
  destruct (Z.eqb_spec (- EINVAL) 0) as [Hz|_]; [lia|].
  destruct b1, b2; try discriminate; simpl.
  - eexists. bind_simpl. simpl.
    destruct (Z.eqb_spec (- EINVAL) 0) as [Hz|_]; [lia|]. simpl.
    repeat split.
  - match goal with |- context [if ?c then Some _ else None] =>
      destruct c end; simpl; eexists; bind_simpl; simpl;
      (destruct (Z.eqb_spec (- EINVAL) 0) as [Hz|_]; [lia|]); simpl;
      repeat split; discriminate.
  - eexists. bind_simpl. simpl.
    destruct (Z.eqb_spec (- EINVAL) 0) as [Hz|_]; [lia|]. simpl.
    repeat split.
Qed.

End Invariants.

(** ** The first record *)

Section FirstRecord.

Context {D : Type} `{Double D} {host : Host}.

Lemma first_record_ok_inv (data : tsma_data_t D) (s : data_set_t)
    (vl : value_list_t D) :
  first_record_ok data s vl = true ->
  forall j src, ds s !! j = Some src -> touched data src = true ->
    Z.of_nat j < window data /\ is_Some (gauge_at vl j).
Proof.
  unfold first_record_ok. rewrite forallb_forall. intros Hall j src Hj Ht.
  specialize (Hall (j, src)). simpl in Hall. rewrite Ht in Hall. simpl in Hall.
  assert (Hin : In (j, src) (imap pair (ds s))).
  { apply list_elem_of_In, elem_of_lookup_imap. eauto. }
  apply Hall, andb_prop in Hin as [Hlt Hg].
  apply bool_decide_eq_true in Hg. split; [lia|exact Hg].
Qed.

(** The first record of an instance, memory being at hand: if the
    gauges it selects are among the first [window] channels, the call
    answers [FC_TARGET_CONTINUE], each of them is replaced by the mean
    of its value and [window - 1] zeros, which are then the cells of
    its window, and every other value is handed back as it came. *)
Theorem first_record_means (h h1 h2 : heap) (s : data_set_t)
    (vl : value_list_t D) (data : tsma_data_t D) :
  window_buffer data = None ->
  1 <= window data <= INT_MAX ->
  ds_num s * window data <= INT_MAX ->
  alloc h = (true, h1) -> alloc h1 = (true, h2) ->
  first_record_ok data s vl = true ->
  exists vl' data',
    tsma_invoke h (Some s) (Some vl) (Some (Some data))
    = Ok (FC_TARGET_CONTINUE, Some vl', Some (Some data'), h2)
    /\ forall i src, ds s !! i = Some src ->
         if touched data src
         then exists g,
                gauge_at vl i = Some g
                /\ cells data' i
                   = g :: replicate (Z.to_nat (window data) - 1) d_zero
                /\ gauge_at vl' i
                   = Some (mean (window data)
                             (g :: replicate (Z.to_nat (window data) - 1)
                                     d_zero))
         else values vl' !! i = values vl !! i.
Proof.
  intros Hnull HN Hcells Hh Hh1 Hrec.
  pose proof (allocate_buffer_first h h1 h2 s data Hnull HN Hcells Hh Hh1)
    as Halloc.
  set (data0 := set_windows data
                  (Some (replicate (Z.to_nat (window data)) 0))
                  (Some (replicate (Z.to_nat (ds_num s * window data))
                           d_zero))) in *.
  assert (Hfresh : forall j src, ds s !! j = Some src ->
            touched data src = true ->
            channel_ok data0 j = true /\ fresh data0 j
            /\ is_Some (gauge_at vl j)).
  { intros j src Hj Ht.
    destruct (first_record_ok_inv _ _ _ Hrec j src Hj Ht) as [Hlt Hg].
    assert (Hnum : Z.of_nat j < ds_num s).
    { unfold ds_num. apply lookup_lt_Some in Hj. lia. }
    destruct (allocate_buffer_fresh h h1 h2 s data j Hnull HN Hcells Hh Hh1
                Hnum Hlt) as (d & Hd & _ & _ & Hok & Hf).
    assert (d = data0) as -> by congruence. auto. }
  destruct (invoke_loop_spec s (ds s) 0 vl data0)
    as (vl' & data' & Hrun & _ & _ & _ & _ & _ & Hin).
  { intros j src Hj Ht. destruct (Hfresh j src Hj Ht) as (Hok & _ & Hg). auto. }
  exists vl', data'. split.
  - unfold tsma_invoke. rewrite Halloc. bind_simpl. simpl.
    change (Z.of_nat 0) with 0 in Hrun. rewrite Hrun. reflexivity.
  - intros i src Hi. specialize (Hin i src Hi). simpl in Hin.
    change (touched data0 src) with (touched data src) in Hin.
    destruct (touched data src) eqn:Ht.
    + destruct (Hfresh i src Hi Ht) as (_ & [Hcur Hzero] & _).
      destruct Hin as (p & g & Hp & Hg & _ & Hw & Hv).
      assert (p = 0) as -> by congruence.
      change (window data0) with (window data) in *.
      assert (Hcell : cells data' i
                      = g :: replicate (Z.to_nat (window data) - 1) d_zero).
      { rewrite Hw, Hzero.
        destruct (Z.to_nat (window data)) as [|n] eqn:Hn; [lia|].
        simpl. rewrite Nat.sub_0_r. reflexivity. }
      exists g. split; [exact Hg|]. split; [exact Hcell|].
      unfold gauge_at. rewrite Hv, Hcell. reflexivity.
    + destruct Hin as (Hv & _). exact Hv.
Qed.

End FirstRecord.

(** ** The further theorems at sample inputs *)

Lemma options_up_to_case_witness :
  tsma_create (D := float) []
    (oconfig_item "Target" [OCONFIG_TYPE_STRING "sma"]
       [option_number "window" 3%float;
        oconfig_item "datasource" [OCONFIG_TYPE_STRING "temp"] []])
    None
  = tsma_create []
      (oconfig_item "sma" []
         [oconfig_item "WINDOW" [OCONFIG_TYPE_NUMBER 3%float]
            [option_number "Nested" 1%float];
          oconfig_item "DataSource" [OCONFIG_TYPE_STRING "temp"] []])
      None.
Proof.
  apply (options_up_to_case (D := float) [] "Target" "sma").
  repeat constructor.
Defined.

Lemma malformed_block_refused_witness :
  match tsma_create (D := float) [true; false]
          (target_block [option_number "Window" 2%float;
                         oconfig_item "Window"
                           [OCONFIG_TYPE_NUMBER 2%float;
                            OCONFIG_TYPE_NUMBER 3%float] []])
          None with
  | Ok (status, ud', _) => (status = -1 \/ status = - ENOMEM) /\ ud' = None
  | Fault f => f = FloatToInt
  end.
Proof.
  apply (malformed_block_refused (D := float) [true; false]
           (target_block [option_number "Window" 2%float;
                          oconfig_item "Window"
                            [OCONFIG_TYPE_NUMBER 2%float;
                             OCONFIG_TYPE_NUMBER 3%float] []])
           None).
  reflexivity.
Defined.

Lemma data_sources_cumulative_witness :
  exists data,
    tsma_create (D := float) []
      (target_block
         [oconfig_item "DataSource"
            [OCONFIG_TYPE_STRING "temp"; OCONFIG_TYPE_STRING "load"] [];
          option_number "Window" 4%float;
          oconfig_item "datasource" [OCONFIG_TYPE_STRING "humidity"] []])
      None
    = Ok (0, Some data, [])
    /\ default [] (data_sources data) = ["temp"; "load"; "humidity"]
    /\ (data_sources data = None <-> ["temp"; "load"; "humidity"] = []).
Proof.
  apply (data_sources_cumulative (D := float)
           (target_block
              [oconfig_item "DataSource"
                 [OCONFIG_TYPE_STRING "temp"; OCONFIG_TYPE_STRING "load"] [];
               option_number "Window" 4%float;
               oconfig_item "datasource" [OCONFIG_TYPE_STRING "humidity"] []])
           None).
  reflexivity.
Defined.

Lemma create_then_destroy_witness :
  exists data,
    tsma_create (D := float) []
      (target_block
         [oconfig_item "DataSource"
            [OCONFIG_TYPE_STRING "temp"; OCONFIG_TYPE_STRING "load"] []])
      None
    = Ok (0, Some data, [])
    /\ tsma_destroy (Some (Some data))
       = (0, Some None,
          [blk_data_source "temp"; blk_data_source "load"; blk_data_sources;
           blk_data]).
Proof.
  apply (create_then_destroy (D := float)
           (target_block
              [oconfig_item "DataSource"
                 [OCONFIG_TYPE_STRING "temp"; OCONFIG_TYPE_STRING "load"] []])
           None).
  reflexivity.
Defined.

Lemma window_one_pass_through_witness :
  exists data',
    tsma_invoke_gauge (gauges ["temp"; "load"])
      (readings [30%float; 0.5%float])
      {| window := 1; window_ptr := Some [0];
         window_buffer := Some [7%float; 0%float]; data_sources := None |}
      (Z.of_nat 0)
    = Ok (0, {| values := <[0%nat := gauge (d_div (d_add d_zero 30%float)
                                              (d_of_int 1))]>
                            (values (readings [30%float; 0.5%float])) |},
          data')
    /\ cells data' 0 = [30%float]
    /\ (d_div (d_add d_zero 30%float) (d_of_int 1) = 30%float ->
        tsma_invoke_gauge (gauges ["temp"; "load"])
          (readings [30%float; 0.5%float])
          {| window := 1; window_ptr := Some [0];
             window_buffer := Some [7%float; 0%float]; data_sources := None |}
          (Z.of_nat 0)
        = Ok (0, readings [30%float; 0.5%float], data')).
Proof.
  apply (window_one_pass_through (D := float) (gauges ["temp"; "load"])
           (readings [30%float; 0.5%float])
           {| window := 1; window_ptr := Some [0];
              window_buffer := Some [7%float; 0%float];
              data_sources := None |} 0 30%float); reflexivity.
Defined.

(** In binary64 the expression is the value for [30.0] and not for
    [-0.0], which comes back as [+0.0]. *)
Example window_one_binary64 :
  d_div (d_add d_zero 30%float) (d_of_int 1) = 30%float
  /\ d_div (d_add d_zero (-0)%float) (d_of_int 1) = 0%float.
Proof. split; reflexivity. Qed.


Lemma update_is_local_witness :
  exists vl' data',
    tsma_invoke_gauge (gauges ["temp"; "load"])
      (readings [30%float; 0.5%float]) (started (D := float) 2 2)
      (Z.of_nat 1)
    = Ok (0, vl', data')
    /\ averaged (started 2 2) data' (readings [30%float; 0.5%float]) vl' 1
    /\ forall i, i <> 1%nat ->
         kept (started 2 2) data' (readings [30%float; 0.5%float]) vl' i.
Proof.
  apply (update_is_local (D := float) (gauges ["temp"; "load"])
           (readings [30%float; 0.5%float]) (started 2 2) 1).
  - reflexivity.
  - eexists. reflexivity.
Defined.

Lemma windows_allocated_once_witness :
  match tsma_invoke (D := float) [false; false] (Some (gauges ["temp"; "load"]))
          (Some (readings [30%float; 0.5%float]))
          (Some (Some (started 2 2))) with
  | Ok (status, _, ud', h') =>
      status = FC_TARGET_CONTINUE /\ h' = [false; false]
      /\ exists data',
           ud' = Some (Some data')
           /\ length <$> window_buffer data'
              = length <$> window_buffer (started (D := float) 2 2)
           /\ length <$> window_ptr data'
              = length <$> window_ptr (started (D := float) 2 2)
  | Fault _ => True
  end.
Proof.
  apply (windows_allocated_once (D := float) [false; false]
           (gauges ["temp"; "load"]) (readings [30%float; 0.5%float])
           (started 2 2)).
  discriminate.
Defined.

Lemma cursors_stay_in_range_witness :
  match tsma_invoke (D := float) [] (Some (gauges ["temp"; "load"]))
          (Some (readings [30%float; 0.5%float]))
          (Some (Some (created 2 None))) with
  | Ok (_, _, ud', _) =>
      exists data', ud' = Some (Some data') /\ cursors_in_range data' = true
  | Fault _ => True
  end.
Proof.
  apply (cursors_stay_in_range (D := float) [] (gauges ["temp"; "load"])
           (readings [30%float; 0.5%float]) (created 2 None)).
  - simpl. lia.
  - reflexivity.
Defined.

Lemma allocation_failure_status_witness :
  exists data',
    tsma_invoke (D := float) [true; false] (Some (gauges ["temp"]))
      (Some (readings [30%float])) (Some (Some (created 1 None)))
    = Ok (- EINVAL, Some (readings [30%float]), Some (Some data'), [])
    /\ window data' = window (created (D := float) 1 None)
    /\ data_sources data' = data_sources (created (D := float) 1 None)
    /\ (false = false -> window_buffer data' = None).
Proof.
  apply (allocation_failure_status (D := float) [true; false] [false] []
           true false (gauges ["temp"]) (readings [30%float])
           (created 1 None)); reflexivity.
Defined.

Lemma first_record_means_witness :
  exists vl' data',
    tsma_invoke (D := float) []
      (Some {| ds := [ {| name := "Temp"; type := DS_TYPE_GAUGE |};
                       {| name := "packets"; type := DS_TYPE_COUNTER |};
                       {| name := "humidity"; type := DS_TYPE_GAUGE |} ] |})
      (Some {| values := [gauge 30%float; counter 7; gauge 50%float] |})
      (Some (Some (created 2 (Some ["temp"; "packets"]))))
    = Ok (FC_TARGET_CONTINUE, Some vl', Some (Some data'), [])
    /\ forall i src,
         [ {| name := "Temp"; type := DS_TYPE_GAUGE |};
           {| name := "packets"; type := DS_TYPE_COUNTER |};
           {| name := "humidity"; type := DS_TYPE_GAUGE |} ] !! i = Some src ->
         if touched (created (D := float) 2 (Some ["temp"; "packets"])) src
         then exists g,
                gauge_at
                  {| values := [gauge 30%float; counter 7; gauge 50%float] |} i
                = Some g
                /\ cells data' i = g :: replicate 1 0%float
                /\ gauge_at vl' i = Some (mean 2 (g :: replicate 1 0%float))
         else values vl' !! i
              = [gauge 30%float; counter 7; gauge 50%float] !! i.
Proof.
  refine (first_record_means (D := float) [] [] []
            {| ds := [ {| name := "Temp"; type := DS_TYPE_GAUGE |};
                       {| name := "packets"; type := DS_TYPE_COUNTER |};
                       {| name := "humidity"; type := DS_TYPE_GAUGE |} ] |}
            {| values := [gauge 30%float; counter 7; gauge 50%float] |}
            (created 2 (Some ["temp"; "packets"])) _ _ _ _ _ _).
  - reflexivity.
  - simpl. unfold INT_MAX. lia.
  - unfold ds_num, INT_MAX. simpl. lia.
  - reflexivity.
  - reflexivity.
  - reflexivity.
Defined.

(** ** Channels without a cursor

    The first record makes [window] cursors.  A channel whose index is
    not below the window size has its cells and no cursor, and the
    calls that update it are undefined. *)

(** C1, at an instance with a window of two cells and records of three
    gauges: the third channel has no cursor, so its update reads
    outside the array of cursors, at the first record and, from the
    state the first record would leave, on every later one; no mean of
    its last two values is ever handed back. *)
Theorem steady_state_without_cursor :
  allocate_buffer [] (gauges ["temp"; "load"; "humidity"])
    (created (D := float) 2 None)
  = Ok (0, started 3 2, [])
  /\ cursor (started (D := float) 3 2) 2 = None
  /\ (forall vl : value_list_t float,
        tsma_invoke_gauge (gauges ["temp"; "load"; "humidity"]) vl
          (started 3 2) 2
        = Fault OutOfBounds)
  /\ tsma_invoke [] (Some (gauges ["temp"; "load"; "humidity"]))
       (Some (readings [1%float; 2%float; 3%float]))
       (Some (Some (created 2 None)))
     = Fault OutOfBounds.
Proof. repeat split. Qed.

(** C2, at an instance with a window of four cells and records of five
    gauges: the fifth channel is left with four zero cells and no
    cursor, and its first update reads outside the array of cursors
    instead of handing back a quarter of the value. *)
Theorem cold_start_without_cursor :
  allocate_buffer [] (gauges ["a"; "b"; "c"; "d"; "e"])
    (created (D := float) 4 None)
  = Ok (0, started 5 4, [])
  /\ cells (started (D := float) 5 4) 4 = replicate 4 0%float
  /\ cursor (started (D := float) 5 4) 4 = None
  /\ updates (gauges ["a"; "b"; "c"; "d"; "e"]) (started 5 4)
       [(4%nat, readings [1%float; 2%float; 3%float; 4%float; 10%float])]
     = Fault OutOfBounds
  /\ tsma_invoke [] (Some (gauges ["a"; "b"; "c"; "d"; "e"]))
       (Some (readings [1%float; 2%float; 3%float; 4%float; 10%float]))
       (Some (Some (created 4 None)))
     = Fault OutOfBounds.
Proof. repeat split. Qed.

(** C4, at the default window with the data source [temp] configured
    and a record whose second channel is [temp]: the first channel is
    not selected, the second is, and its update reads a cursor outside
    the array; the record is not filtered but the call undefined. *)
Theorem selected_without_cursor :
  is_selected (created (D := float) 1 (Some ["temp"])) "humidity" = false
  /\ is_selected (created (D := float) 1 (Some ["temp"])) "temp" = true
  /\ tsma_invoke [] (Some (gauges ["humidity"; "temp"]))
       (Some (readings [50%float; 30%float]))
       (Some (Some (created 1 (Some ["temp"]))))
     = Fault OutOfBounds.
Proof. repeat split. Qed.

(** C7, at the default window and a record of a counter followed by a
    gauge: the counter is passed over, and the call then does not go on
    to answer [FC_TARGET_CONTINUE]: the update of the gauge, the second
    channel, reads a cursor outside the array. *)
Theorem gauge_after_counter_without_cursor :
  tsma_invoke []
    (Some {| ds := [ {| name := "packets"; type := DS_TYPE_COUNTER |};
                     {| name := "temp"; type := DS_TYPE_GAUGE |} ] |})
    (Some {| values := [counter 7; gauge 30%float] |})
    (Some (Some (created (D := float) 1 None)))
  = Fault OutOfBounds.
Proof. reflexivity. Qed.
